(** * crawl_thairath: a shallow embedding of the sitemap crawler

    The script [src/crawl_thairath.py] walks a sitemap hierarchy, keeps the
    article URLs of the requested sections, fetches and parses each page and
    writes one CSV per section.  This development embeds the script's own
    functions, in the order of the source file, and states the properties of
    the specification about them.

    Conventions.
    - A Python [str] is the list of its code points ([str := list N]).
    - Library calls whose code is not part of the script (the HTML and XML
      parsers, [datetime.fromisoformat], [int], the Unicode digit table used
      by [re]) are fields of the record [PyLib]; what the outside world
      answers (HTTP, the clock, the file system) is a field of [World].
    - Effects are threaded through a small exception-and-trace monad [M]. *)

From Stdlib Require Import ZArith NArith Ascii String DecimalString.
From stdpp Require Import gmap list.

Local Open Scope N_scope.

(** ** Python strings *)

Module Str.

Abbreviation char := N (only parsing).
Abbreviation str := (list N) (only parsing).

(** An ASCII literal of the source, as code points. *)
Definition lit (s : string) : str :=
  (λ a, N_of_ascii a) <$> list_ascii_of_string s.

(** [prefix.startswith] at the head of [s]. *)
Fixpoint startswith (s prefix : str) : bool :=
  match prefix, s with
  | [], _ => true
  | p :: prefix', c :: s' => (p =? c) && startswith s' prefix'
  | _ :: _, [] => false
  end.

(** [needle in hay]. *)
Fixpoint str_in (needle hay : str) : bool :=
  startswith hay needle ||
  match hay with
  | [] => false
  | _ :: hay' => str_in needle hay'
  end.

(** [str.isspace] on one code point: the characters [str.strip()] removes. *)
Definition isspace (c : char) : bool :=
  ((0x09 <=? c) && (c <=? 0x0D)) || ((0x1C <=? c) && (c <=? 0x20)) ||
  (c =? 0x85) || (c =? 0xA0) || (c =? 0x1680) ||
  ((0x2000 <=? c) && (c <=? 0x200A)) ||
  (c =? 0x2028) || (c =? 0x2029) || (c =? 0x202F) || (c =? 0x205F) ||
  (c =? 0x3000).

Fixpoint lstrip (s : str) : str :=
  match s with
  | c :: s' => if isspace c then lstrip s' else s
  | [] => []
  end.

Definition rstrip (s : str) : str := reverse (lstrip (reverse s)).

(** [s.strip()] *)
Definition strip (s : str) : str := rstrip (lstrip s).

(** [s.replace(old, new)]: every non-overlapping occurrence, left to right.
    [skip] counts the characters of a matched occurrence still to drop. *)
Fixpoint replace_from (old new s : str) (skip : nat) : str :=
  match s with
  | [] => []
  | c :: s' =>
      match skip with
      | S k => replace_from old new s' k
      | O =>
          if startswith s old
          then new ++ replace_from old new s' (length old - 1)
          else c :: replace_from old new s' 0
      end
  end.

Definition replace (s old new : str) : str :=
  match old with
  | [] => new ++ flat_map (λ c, c :: new) s
  | _ :: _ => replace_from old new s 0
  end.

(** [s.split(sep)] for a one-character separator, pieces accumulated in [cur]. *)
Fixpoint split_from (sep : char) (s cur : str) : list str :=
  match s with
  | [] => [reverse cur]
  | c :: s' =>
      if c =? sep then reverse cur :: split_from sep s' []
      else split_from sep s' (c :: cur)
  end.

Definition split (s : str) (sep : char) : list str := split_from sep s [].

(** Truth value of a string: non-empty. *)
Definition truthy (s : str) : bool :=
  match s with [] => false | _ :: _ => true end.

End Str.
Import Str.

(** ** Config: the section tables *)

Definition SUBFILTERS : gmap str (str → bool) :=
  list_to_map
    [ (lit "economics", λ u, str_in (lit "/money/economics/thai_economics/") u);
      (lit "investment", λ u, str_in (lit "/money/investment/") u);
      (lit "tech_innovation", λ u, str_in (lit "/money/tech_innovation/") u);
      (lit "politic", λ u, str_in (lit "/news/politic/") u);
      (lit "personal_finance", λ u, str_in (lit "/money/personal_finance/") u);
      (lit "business_marketing", λ u, str_in (lit "/money/business_marketing/") u) ].

Definition SECTION_PREFIX : gmap str str :=
  list_to_map
    [ (lit "economics", lit "/money/economics");
      (lit "investment", lit "/money/investment");
      (lit "tech_innovation", lit "/money/tech_innovation");
      (lit "politic", lit "/news/politic");
      (lit "personal_finance", lit "/money/personal_finance");
      (lit "business_marketing", lit "/money/business_marketing") ].

(** ** which_section *)

(** The test of one loop iteration of [which_section]:
    [prefix and prefix in url] and then [not sub_filter or sub_filter(url)]. *)
Definition section_matches (url s : str) : bool :=
  let prefix := SECTION_PREFIX !! s in
  let sub_filter := SUBFILTERS !! s in
  match prefix with
  | Some p => truthy p && str_in p url
  | None => false
  end &&
  match sub_filter with
  | None => true
  | Some f => f url
  end.

(** [sections_set] is the iterable in the order the [for] loop visits it. *)
Fixpoint which_section (url : str) (sections_set : list str) : option str :=
  match sections_set with
  | [] => None
  | s :: rest =>
      if section_matches url s then Some s else which_section url rest
  end.

(** ** Values of the libraries the script calls *)

(** [datetime]: the naive fields as microseconds since 0001-01-01T00:00:00,
    and the UTC offset (seconds) when the value is timezone-aware. *)
Record datetime := { wall : Z; tzinfo : option Z }.

(** [dt.replace(tzinfo=None)]: the same wall-clock fields, made naive. *)
Definition replace_tzinfo_None (dt : datetime) : datetime :=
  {| wall := wall dt; tzinfo := None |}.

(** [a < b] on two naive datetimes. *)
Definition naive_lt (a b : datetime) : bool := (wall a <? wall b)%Z.

(** The parse tree [BeautifulSoup(html, 'html.parser')] builds. *)
#[local] Set Warnings "-register-all".
Inductive node :=
  | Text (s : str)
  | Tag (name : str) (attrs : gmap str str) (children : list node).

(** What [load_one] reads of a parsed sitemap document.  The text of an XML
    element is [None] or a string; a child looked up with [find] may be
    missing ([None], whose [.text] raises [AttributeError]). *)
Definition xml_text := option str.
Record UrlTag := { ut_loc : option xml_text; ut_lastmod : option xml_text }.
Record SitemapDoc := {
  doc_sitemaps : list (option xml_text);  (* the [loc] child of each [sitemap] element *)
  doc_urls : list UrlTag                  (* each [url] element *)
}.

(** The dict [{'loc': loc, 'lastmod': lastmod}] appended to [urls]. *)
Record SitemapEntry := { loc : str; lastmod : option datetime }.

(** The dict returned by [extract_article]. [headline] holds whatever
    [og_title.get("content")] returned, which may be [None]. *)
Record ArticleMeta := {
  meta_url : str;
  meta_headline : option str;
  meta_summary : str;
  meta_content : str;
  meta_published_iso : str
}.

(** The [record] dict built in [main], fields in insertion order. *)
Record ArticleRecord := {
  agency : str;
  section : option str;
  id : str;
  published_iso : str;
  headline : option str;
  summary : str;
  content : str;
  url : str
}.

(** A value of [parse_args]: the next argument, or [True]. *)
Inductive argval := ArgStr (s : str) | ArgTrue.

(** ** Exceptions, events and the monad *)

(** The subclasses of [Exception] the script can meet. *)
Inductive exn :=
  | RequestException (detail : str)
  | ParseError
  | SyntaxError
  | AttributeError
  | ValueError
  | OverflowError
  | KeyError
  | OSError (detail : str).

Inductive message :=
  | MsgSitemapRequired
  | MsgFetchingSitemap (sitemap_url : argval)
  | MsgSitemapFail (u : str) (e : exn)
  | MsgSaved (u : str)
  | MsgFail (u : str) (e : exn)
  | MsgDone (ok skip fail : Z).

(** What the run does to the outside world, in order. Durations are in
    milliseconds ([time.sleep(0.2)] is [EvSleep 200]). *)
Inductive event :=
  | EvGet (u : str) (timeout : Z)
  | EvSleep (millis : Z)
  | EvPrint (m : message)
  | EvWriteCsv (path : str) (fieldnames : list str) (rows : list ArticleRecord).

Definition trace := list event.

Inductive result (A : Type) :=
  | Ok (a : A)
  | Raise (e : exn)
  | OutOfFuel.
Arguments Ok {A} a.
Arguments Raise {A} e.
Arguments OutOfFuel {A}.

(** A computation over mutable local state [S] and the trace of events.
    The state survives a raised exception, as mutated objects do. *)
Definition M (S A : Type) : Type := S → trace → result A * S * trace.

Section Monad.
Context {S : Type}.

Definition ret {A} (a : A) : M S A := λ s t, (Ok a, s, t).

Definition bind {A B} (m : M S A) (k : A → M S B) : M S B :=
  λ s t,
    match m s t with
    | (Ok a, s', t') => k a s' t'
    | (Raise e, s', t') => (Raise e, s', t')
    | (OutOfFuel, s', t') => (OutOfFuel, s', t')
    end.

Definition raise {A} (e : exn) : M S A := λ s t, (Raise e, s, t).

Definition out_of_fuel {A} : M S A := λ s t, (OutOfFuel, s, t).

(** [try: m except Exception as e: h e] *)
Definition try_except {A} (m : M S A) (h : exn → M S A) : M S A :=
  λ s t,
    match m s t with
    | (Raise e, s', t') => h e s' t'
    | r => r
    end.

Definition emit (ev : event) : M S unit := λ s t, (Ok tt, s, t ++ [ev]).

Definition gets {A} (f : S → A) : M S A := λ s t, (Ok (f s), s, t).

Definition modify (f : S → S) : M S unit := λ s t, (Ok tt, f s, t).

(** The answer of an oracle that sees the events so far. *)
Definition ask {A} (f : trace → A) : M S A := λ s t, (Ok (f t), s, t).

(** The value of a call that returned, or the exception it raised. *)
Definition returned {A} (r : exn + A) : M S A :=
  match r with
  | inr a => ret a
  | inl e => raise e
  end.
End Monad.

Global Instance M_ret {S} : MRet (M S) := λ A, ret.
Global Instance M_bind {S} : MBind (M S) := λ A B k m, bind m k.

(** [for x in xs: body x] *)
Fixpoint for_each {S A} (xs : list A) (body : A → M S unit) : M S unit :=
  match xs with
  | [] => ret tt
  | x :: xs' => body x;; for_each xs' body
  end.

(** A block with its own mutable variables, initially [s0]; their final
    values come back with the result, and are lost when it raises. *)
Definition with_locals {S S' A} (s0 : S') (m : M S' A) : M S (A * S') :=
  λ s t,
    match m s0 t with
    | (Ok a, s', t') => (Ok (a, s'), s, t')
    | (Raise e, _, t') => (Raise e, s, t')
    | (OutOfFuel, _, t') => (OutOfFuel, s, t')
    end.

(** ** The environment *)

(** Library functions the script calls and whose code is elsewhere. *)
Record PyLib := {
  (** [\d] of [re] beyond ASCII: the other decimal digits of Unicode. *)
  unicode_digit : N → bool;
  (** [datetime.fromisoformat]; [None] when it raises. *)
  fromisoformat : str → option datetime;
  (** [dt.isoformat()] *)
  isoformat : datetime → str;
  (** [int(s)] on a string; [None] when it raises [ValueError]. *)
  int_of_str : str → option Z;
  (** [BeautifulSoup(html, 'html.parser')] *)
  BeautifulSoup : str → node;
  (** the order in which a [for] loop visits [set(l)] *)
  set_iter : list str → list str;
  (** [ET.fromstring], the namespace lookup and the two [findall] calls. *)
  ET_fromstring : str → exn + SitemapDoc
}.

(** The outside world; each answer may depend on everything done so far. *)
Record World := {
  (** [requests.get(...)], [raise_for_status()], [.text] *)
  http_get : trace → str → Z → exn + str;
  (** [int(time.time())] *)
  time_time : trace → Z;
  (** [datetime.now()] *)
  datetime_now : trace → datetime;
  (** opening and writing one CSV file; [Some e] when it raises *)
  write_file : trace → str → option exn
}.

(** ** Utils *)

(** [parse_args]: one pass over [sys.argv]; a later [--key] overwrites. *)
Fixpoint parse_args_from (argv : list str) (args : gmap str argval) :
    gmap str argval :=
  match argv with
  | [] => args
  | arg :: rest =>
      if startswith arg (lit "--") then
        let key := drop 2 arg in
        let val :=
          match rest with
          | next :: _ =>
              if negb (startswith next (lit "--")) then ArgStr next else ArgTrue
          | [] => ArgTrue
          end in
        parse_args_from rest (<[key := val]> args)
      else parse_args_from rest args
  end.

Definition parse_args (argv : list str) : gmap str argval :=
  parse_args_from argv ∅.

(** The string ['\n']. *)
Definition NL : str := [10].

(** [csv_escape]; the argument is [None] or a string. *)
Definition csv_escape (val : option str) : str :=
  match val with
  | None => []
  | Some v => strip (replace v NL (lit " "))
  end.

(** [", ".join]-style joining: [sep.join(parts)]. *)
Fixpoint join (sep : str) (parts : list str) : str :=
  match parts with
  | [] => []
  | [p] => p
  | p :: ps => p ++ sep ++ join sep ps
  end.

(** [str(n)] for an [int]. *)
Definition str_of_int (n : Z) : str := lit (NilZero.string_of_int (Z.to_int n)).

(** ** The parse tree of a page *)

(** Every node below [n], in document order. *)
Fixpoint descendants (n : node) : list node :=
  match n with
  | Text _ => []
  | Tag _ _ cs => flat_map (λ c, c :: descendants c) cs
  end.

Definition is_tag (name : str) (n : node) : bool :=
  match n with
  | Tag nm _ _ => bool_decide (nm = name)
  | Text _ => false
  end.

(** [tag.get(key)] *)
Definition tag_get (n : node) (key : str) : option str :=
  match n with
  | Tag _ attrs _ => attrs !! key
  | Text _ => None
  end.

(** [soup.find(name, attrs={key: value})] *)
Definition soup_find (soup : node) (name key value : str) : option node :=
  head (filter (λ n, is_tag name n ∧ tag_get n key = Some value)
          (descendants soup)).

(** [soup.h1], [soup.select_one('main')]: the first tag of that name. *)
Definition first_tag (soup : node) (name : str) : option node :=
  head (filter (λ n, is_tag name n = true) (descendants soup)).

(** [tag.find_all(name)] *)
Definition find_all (n : node) (name : str) : list node :=
  filter (λ c, is_tag name c = true) (descendants n).

(** [tag.get_text()] *)
Fixpoint get_text (n : node) : str :=
  match n with
  | Text s => s
  | Tag _ _ cs => flat_map get_text cs
  end.

(** The words of a [class] attribute. *)
Fixpoint words_from (s cur : str) : list str :=
  match s with
  | [] => match cur with [] => [] | _ => [reverse cur] end
  | c :: s' =>
      if isspace c
      then match cur with [] => words_from s' [] | _ => reverse cur :: words_from s' [] end
      else words_from s' (c :: cur)
  end.

Definition has_class (cls : str) (n : node) : bool :=
  match tag_get n (lit "class") with
  | Some v => bool_decide (cls ∈ words_from v [])
  | None => false
  end.

(** The two kinds of selector [extract_article] passes to [select_one]. *)
Inductive selector := SelName (name : str) | SelClass (cls : str).

Definition select_one (soup : node) (sel : selector) : option node :=
  match sel with
  | SelName name => first_tag soup name
  | SelClass cls => head (filter (λ n, has_class cls n = true) (descendants soup))
  end.

Section Crawler.
Context (lib : PyLib) (w : World).

(** *** normalize_date *)

(** The argument is [None] or a string; so is the result. *)
Definition normalize_date (date_str : option str) : option str :=
  match date_str with
  | None | Some [] => None
  | Some d =>
      match fromisoformat lib (replace d (lit "Z") (lit "+00:00")) with
      | Some dt => Some (isoformat lib dt)
      | None => None
      end
  end.

(** *** Network *)

(** The [except ... raise e] of the source re-raises what it caught. *)
Definition fetch_text {S} (u : str) (timeout : Z) : M S str :=
  r ← ask (λ t, http_get w t u timeout);
  emit (EvGet u timeout);;
  returned r.

Definition sleep {S} (millis : Z) : M S unit := emit (EvSleep millis).

Definition print {S} (m : message) : M S unit := emit (EvPrint m).

Definition fetch_with_fast_retry {S} (u : str) : M S str :=
  try_except (fetch_text u 2)
    (λ _, sleep 200;; fetch_text u 3).

(** *** fetch_sitemap_urls *)

(** The two variables [load_one] closes over. *)
Record sitemap_state := { seen : gset str; urls : list SitemapEntry }.

Definition seen_add (l : str) (s : sitemap_state) : sitemap_state :=
  {| seen := {[l]} ∪ seen s; urls := urls s |}.

Definition urls_append (e : SitemapEntry) (s : sitemap_state) : sitemap_state :=
  {| seen := seen s; urls := urls s ++ [e] |}.

(** [find(...).text]: [AttributeError] on a missing child. *)
Definition child_text {S} (c : option xml_text) : M S xml_text :=
  match c with
  | Some txt => ret txt
  | None => raise AttributeError
  end.

(** The inner [try ... except: pass] around the [lastmod] parse. *)
Definition parse_lastmod (tag : option xml_text) : option datetime :=
  match tag with
  | None => None
  | Some None => None
  | Some (Some txt) => fromisoformat lib (replace txt (lit "Z") (lit "+00:00"))
  end.

(** [fuel] bounds the recursion depth of the model only. *)
Fixpoint load_one (max_sitemaps : Z) (fuel : nat) (u : str) :
    M sitemap_state unit :=
  n ← gets (λ s, size (seen s));
  if (max_sitemaps <=? Z.of_nat n)%Z then ret tt
  else
    match fuel with
    | O => out_of_fuel
    | S fuel' =>
        try_except
          (xml_content ← fetch_text u 10;
           doc ← returned (ET_fromstring lib xml_content);
           for_each (doc_sitemaps doc) (λ sitemap,
             loc ← child_text sitemap;
             sn ← gets seen;
             match loc with
             | Some l =>
                 if truthy l && bool_decide (l ∉ sn)
                 then modify (seen_add l);; load_one max_sitemaps fuel' l
                 else ret tt
             | None => ret tt
             end);;
           for_each (doc_urls doc) (λ url_tag,
             loc ← child_text (ut_loc url_tag);
             let lastmod := parse_lastmod (ut_lastmod url_tag) in
             match loc with
             | Some l =>
                 if truthy l
                 then modify (urls_append {| loc := l; lastmod := lastmod |})
                 else ret tt
             | None => ret tt
             end))
          (λ e, print (MsgSitemapFail u e))
    end.

Definition fetch_sitemap_urls {S} (root_url : str) (max_sitemaps : Z) :
    M S (list SitemapEntry) :=
  r ← with_locals {| seen := ∅; urls := [] |}
        (load_one max_sitemaps (Datatypes.S (Z.to_nat max_sitemaps)) root_url);
  ret (urls r.2).

(** *** extract_article *)

Definition candidates : list selector :=
  [ SelName (lit "main"); SelName (lit "article");
    SelClass (lit "article-content"); SelClass (lit "content-article") ].

(** [[p.get_text().strip() for p in ps if len(p.get_text().strip()) > 2]] *)
Definition paragraphs_of (container : node) : list str :=
  omap (λ p, let txt := strip (get_text p) in
             if (2 <? length txt)%nat then Some txt else None)
       (find_all container (lit "p")).

(** The [for sel in candidates] loop, left by [break] at the first
    selector with a qualifying paragraph. *)
Fixpoint content_loop (soup : node) (sels : list selector) : str :=
  match sels with
  | [] => []
  | sel :: sels' =>
      match select_one soup sel with
      | Some container =>
          match paragraphs_of container with
          | [] => content_loop soup sels'
          | paragraphs => join NL paragraphs
          end
      | None => content_loop soup sels'
      end
  end.

Definition extract_article (html u : str) : ArticleMeta :=
  let soup := BeautifulSoup lib html in
  let headline :=
    match soup_find soup (lit "meta") (lit "property") (lit "og:title") with
    | Some og_title => tag_get og_title (lit "content")
    | None =>
        match first_tag soup (lit "h1") with
        | Some h1 => Some (strip (get_text h1))
        | None => Some []
        end
    end in
  let date_str :=
    match soup_find soup (lit "meta") (lit "property") (lit "article:published_time") with
    | Some pub_time => tag_get pub_time (lit "content")
    | None => Some []
    end in
  let published_iso := normalize_date date_str in
  let content := content_loop soup candidates in
  let desc :=
    match soup_find soup (lit "meta") (lit "property") (lit "og:description") with
    | Some d => Some d
    | None => soup_find soup (lit "meta") (lit "name") (lit "description")
    end in
  let summary :=
    match desc with
    | Some d => strip (default [] (tag_get d (lit "content")))
    | None => []
    end in
  {| meta_url := u;
     meta_headline := headline;
     meta_summary := summary;
     meta_content := content;
     meta_published_iso :=
       match published_iso with
       | Some ((_ :: _) as iso) => iso
       | _ => []
       end |}.

(** *** extract_id_from_url *)

(** [\d] on a [str] pattern: ASCII digits and the other Unicode decimals. *)
Definition is_digit (c : N) : bool :=
  ((48 <=? c) && (c <=? 57)) || ((128 <=? c) && unicode_digit lib c).

(** [[/?#]] *)
Definition is_delim (c : N) : bool := (c =? 47) || (c =? 63) || (c =? 35).

(** [(?:$|[/?#])] at the head of [s]; [$] holds at the end of the string
    and just before a newline that ends it. *)
Definition at_end_or_delim (s : str) : bool :=
  match s with
  | [] => true
  | [c] => (c =? 10) || is_delim c
  | c :: _ => is_delim c
  end.

(** [(\d+)(?:$|[/?#])] at the head of [s]: the group. [\d+] is greedy: it
    first takes one more digit, and gives it back when the rest fails. *)
Fixpoint match_digits (s : str) : option str :=
  match s with
  | c :: s' =>
      if is_digit c then
        match match_digits s' with
        | Some g => Some (c :: g)
        | None => if at_end_or_delim s' then Some [c] else None
        end
      else None
  | [] => None
  end.

(** [re.search(r'/(\d+)(?:$|[/?#])', u)]: the group of the leftmost match. *)
Fixpoint re_search (u : str) : option str :=
  match u with
  | [] => None
  | c :: u' =>
      match (if c =? 47 then match_digits u' else None) with
      | Some g => Some g
      | None => re_search u'
      end
  end.

Definition extract_id_from_url (u : str) : str :=
  match re_search u with
  | Some g => g
  | None => []
  end.

(** *** main *)

(** A [dict] keyed by section name, in insertion order. *)
Fixpoint dict_get {V} (d : list (str * V)) (k : str) : option V :=
  match d with
  | [] => None
  | (k', v) :: d' => if decide (k' = k) then Some v else dict_get d' k
  end.

(** [d[k] = v]: in place when [k] is a key, appended otherwise. *)
Fixpoint dict_set {V} (d : list (str * V)) (k : str) (v : V) : list (str * V) :=
  match d with
  | [] => [(k, v)]
  | (k', v') :: d' =>
      if decide (k' = k) then (k', v) :: d' else (k', v') :: dict_set d' k v
  end.

(** [int(x)] for an argument value or the integer default. *)
Definition int_arg (a : option argval) (dflt : Z) : exn + Z :=
  match a with
  | None => inr dflt
  | Some ArgTrue => inr 1%Z
  | Some (ArgStr s) =>
      match int_of_str lib s with
      | Some n => inr n
      | None => inl ValueError
      end
  end.

(** [[s.strip() for s in sections_str.split(',') if s.strip()]]; a bare
    [--sections] left [True], which has no [split]. *)
Definition requested_sections (sections_str : argval) : exn + list str :=
  match sections_str with
  | ArgStr s => inr (filter (λ x, truthy x = true) (strip <$> split s 44))
  | ArgTrue => inl AttributeError
  end.

(** [out_csv_base.replace('.csv', f'_{sec}.csv')] *)
Definition csv_path_for (out_csv_base : argval) (sec : str) : exn + str :=
  match out_csv_base with
  | ArgStr b => inr (replace b (lit ".csv") (lit "_" ++ sec ++ lit ".csv"))
  | ArgTrue => inl AttributeError
  end.

(** [str(x)] of an argument value, as [requests] reads a URL. *)
Definition str_of_argval (a : argval) : str :=
  match a with
  | ArgStr s => s
  | ArgTrue => lit "True"
  end.

(** One past [datetime.max], in microseconds. *)
Definition DATETIME_END : Z := 3652059 * 86400000000.

(** [now - timedelta(days=days)]; both steps can raise [OverflowError]. *)
Definition minus_days (now : datetime) (days : Z) : exn + datetime :=
  if (999999999 <? Z.abs days)%Z then inl OverflowError
  else
    let wl := (wall now - days * 86400000000)%Z in
    if ((0 <=? wl) && (wl <? DATETIME_END))%Z
    then inr {| wall := wl; tzinfo := tzinfo now |}
    else inl OverflowError.

(** The recency test of the filter loop:
    [item['lastmod'] and item['lastmod'].replace(tzinfo=None) <
     since_date.replace(tzinfo=None)]. *)
Definition too_old (since_date : datetime) (item : SitemapEntry) : bool :=
  match lastmod item with
  | Some lm => naive_lt (replace_tzinfo_None lm) (replace_tzinfo_None since_date)
  | None => false
  end.

(** Truth value of [which_section]'s result. *)
Definition sec_truthy (sec : option str) : bool :=
  match sec with
  | Some s => truthy s
  | None => false
  end.

(** The "Filter and Group" loop over [all_urls]. *)
Fixpoint filter_loop (section_set : list str) (since_date : datetime)
    (all_urls filtered : list SitemapEntry) (seen_locs : gset str) :
    list SitemapEntry * gset str :=
  match all_urls with
  | [] => (filtered, seen_locs)
  | item :: rest =>
      let sec := which_section (loc item) section_set in
      if sec_truthy sec && bool_decide (loc item ∉ seen_locs) then
        if too_old since_date item
        then filter_loop section_set since_date rest filtered seen_locs
        else filter_loop section_set since_date rest
               (filtered ++ [item]) ({[loc item]} ∪ seen_locs)
      else filter_loop section_set since_date rest filtered seen_locs
  end.

(** The counters and the per-section lists of the processing loop. *)
Record crawl_state := {
  results : list (str * list ArticleRecord);
  ok : Z;
  skip : Z;
  fail : Z
}.

(** [{s: [] for s in sections}] *)
Definition init_results (sections : list str) : list (str * list ArticleRecord) :=
  foldl (λ d s, dict_set d s []) [] sections.

(** [results[sec].append(record)] *)
Definition results_append (sec : option str) (record : ArticleRecord) :
    M crawl_state unit :=
  d ← gets results;
  match sec with
  | None => raise KeyError
  | Some s =>
      match dict_get d s with
      | None => raise KeyError
      | Some items =>
          modify (λ st, {| results := dict_set d s (items ++ [record]);
                           ok := ok st; skip := skip st; fail := fail st |})
      end
  end.

Definition incr_ok (st : crawl_state) : crawl_state :=
  {| results := results st; ok := ok st + 1; skip := skip st; fail := fail st |}.

Definition incr_fail (st : crawl_state) : crawl_state :=
  {| results := results st; ok := ok st; skip := skip st; fail := fail st + 1 |}.

(** [extract_id_from_url(loc) or str(int(time.time()))] *)
Definition record_id {S} (l : str) : M S str :=
  let i := extract_id_from_url l in
  if truthy i then ret i
  else now ← ask (time_time w); ret (str_of_int now).

(** The body of [for item in filtered]. *)
Definition process_item (section_set : list str) (item : SitemapEntry) :
    M crawl_state unit :=
  let l := loc item in
  let sec := which_section l section_set in
  try_except
    (html ← fetch_with_fast_retry l;
     let meta := extract_article html l in
     i ← record_id l;
     let record :=
       {| agency := lit "thairath";
          section := sec;
          id := i;
          published_iso := meta_published_iso meta;
          headline := meta_headline meta;
          summary := meta_summary meta;
          content := meta_content meta;
          url := l |} in
     results_append sec record;;
     modify incr_ok;;
     print (MsgSaved l);;
     sleep 50)
    (λ e, print (MsgFail l e);; modify incr_fail).

(** [items[0].keys()] *)
Definition fieldnames : list str :=
  [ lit "agency"; lit "section"; lit "id"; lit "published_iso";
    lit "headline"; lit "summary"; lit "content"; lit "url" ].

(** The "Save outputs" loop: the rows go to the writer as they are. *)
Definition save_outputs {S} (out_csv_base : argval)
    (res : list (str * list ArticleRecord)) : M S unit :=
  for_each res (λ '(sec, items),
    match items with
    | [] => ret tt
    | _ :: _ =>
        csv_path ← returned (csv_path_for out_csv_base sec);
        emit (EvWriteCsv csv_path fieldnames items);;
        r ← ask (λ t, write_file w t csv_path);
        match r with
        | Some e => raise e
        | None => ret tt
        end
    end).

(** [main]; [limit] and [out_json_base] are read and not used afterwards,
    and [skip] is never incremented. *)
Definition main (argv : list str) : M unit unit :=
  let args := parse_args argv in
  match args !! lit "sitemap" with
  | None | Some (ArgStr []) => print MsgSitemapRequired
  | Some sitemap_url =>
      since_days ← returned (int_arg (args !! lit "since-days") 1825);
      let sections_str :=
        default (ArgStr (lit "economics,investment,tech_innovation,politic"))
                (args !! lit "sections") in
      limit ← returned (int_arg (args !! lit "limit") 0);
      let out_csv_base :=
        default (ArgStr (lit "data/thairath_dataset.csv")) (args !! lit "out-csv") in
      sections ← returned (requested_sections sections_str);
      let section_set := set_iter lib sections in
      now ← ask (datetime_now w);
      since_date ← returned (minus_days now since_days);
      print (MsgFetchingSitemap sitemap_url);;
      all_urls ← fetch_sitemap_urls (str_of_argval sitemap_url) 500;
      let filtered := (filter_loop section_set since_date all_urls [] ∅).1 in
      r ← with_locals {| results := init_results sections; ok := 0; skip := 0; fail := 0 |}
            (for_each filtered (process_item section_set));
      save_outputs out_csv_base (results r.2);;
      print (MsgDone (ok r.2) (skip r.2) (fail r.2))
  end.

End Crawler.

(** The completion status of the process: [main()] returning gives 0, an
    uncaught exception gives 1. *)
Definition exit_status {S} (r : result unit * S * trace) : option Z :=
  match r.1.1 with
  | Ok _ => Some 0%Z
  | Raise _ => Some 1%Z
  | OutOfFuel => None
  end.

(** ** A small concrete environment, for evaluating the model *)

Module Demo.

Definition A_url : str := lit "https://x/sitemap-a.xml".
Definition B_url : str := lit "https://x/sitemap-b.xml".
Definition a1 : str := lit "https://x/news/politic/101".
Definition b1 : str := lit "https://x/money/investment/202".

(** Sitemap A lists B and one article; B lists A and one article. *)
Definition A_doc : SitemapDoc :=
  {| doc_sitemaps := [Some (Some B_url)];
     doc_urls := [ {| ut_loc := Some (Some a1); ut_lastmod := None |} ] |}.
Definition B_doc : SitemapDoc :=
  {| doc_sitemaps := [Some (Some A_url)];
     doc_urls := [ {| ut_loc := Some (Some b1); ut_lastmod := None |} ] |}.

(** A page with two paragraphs and an [og:title] that has no [content]. *)
Definition page : node :=
  Tag (lit "[document]") ∅
    [ Tag (lit "meta") {[ lit "property" := lit "og:title" ]} [];
      Tag (lit "h1") ∅ [Text (lit "Heading")];
      Tag (lit "article") ∅
        [ Tag (lit "p") ∅ [Text (lit "Para one")];
          Tag (lit "p") ∅ [Text (lit "Para two")] ] ].

(** [int] on a plain run of ASCII digits; this environment is given no
    other numeral. *)
Definition decimal (s : str) : option Z :=
  match s with
  | [] => None
  | _ =>
      foldl (λ acc c,
               match acc with
               | Some n =>
                   if (48 <=? c) && (c <=? 57)
                   then Some (10 * n + Z.of_N (c - 48))%Z
                   else None
               | None => None
               end)
            (Some 0%Z) s
  end.

Definition lib : PyLib :=
  {| unicode_digit := λ _, false;
     fromisoformat := λ _, None;
     isoformat := λ _, [];
     int_of_str := decimal;
     BeautifulSoup := λ _, page;
     set_iter := remove_dups;
     ET_fromstring := λ body,
       if decide (body = lit "A") then inr A_doc
       else if decide (body = lit "B") then inr B_doc
       else inl ParseError |}.

Definition world : World :=
  {| http_get := λ _ u _,
       if decide (u = A_url) then inr (lit "A")
       else if decide (u = B_url) then inr (lit "B")
       else if decide (u = a1) then inr (lit "<html>")
       else inl (RequestException (lit "404"));
     time_time := λ _, 1700000000%Z;
     datetime_now := λ _, {| wall := 63800000000000000; tzinfo := None |};
     write_file := λ _ _, None |}.

Definition argv : list str :=
  [ lit "crawl_thairath.py"; lit "--sitemap"; A_url ].

(** A server that fails the first request of the run and answers the later
    ones. *)
Definition flaky : World :=
  {| http_get := λ t _ _,
       match t with
       | [] => inl (RequestException (lit "timeout"))
       | _ :: _ => inr (lit "<html>")
       end;
     time_time := time_time world;
     datetime_now := datetime_now world;
     write_file := write_file world |}.

End Demo.

(** The end-to-end scenario of the specification: a URL set with one
    politic article, modified today, whose page has an Open Graph title, one
    paragraph and a publication time. *)
Module Scenario.

Definition sitemap_url : str := lit "https://x/sitemap.xml".
Definition article_url : str := lit "https://x/news/politic/12345".
Definition today : datetime := {| wall := 63850118400000000; tzinfo := Some 0%Z |}.
Definition published : datetime := {| wall := 63839664000000000; tzinfo := Some 0%Z |}.

Definition urlset : SitemapDoc :=
  {| doc_sitemaps := [];
     doc_urls := [ {| ut_loc := Some (Some article_url);
                      ut_lastmod := Some (Some (lit "2024-05-01T00:00:00Z")) |} ] |}.

Definition page : node :=
  Tag (lit "[document]") ∅
    [ Tag (lit "meta") {[ lit "property" := lit "og:title"; lit "content" := lit "H" ]} [];
      Tag (lit "article") ∅ [ Tag (lit "p") ∅ [Text (lit "Body text here.")] ];
      Tag (lit "meta")
        {[ lit "property" := lit "article:published_time";
           lit "content" := lit "2024-01-01T00:00:00Z" ]} [] ].

Definition lib : PyLib :=
  {| unicode_digit := λ _, false;
     fromisoformat := λ s,
       if decide (s = lit "2024-05-01T00:00:00+00:00") then Some today
       else if decide (s = lit "2024-01-01T00:00:00+00:00") then Some published
       else None;
     isoformat := λ dt,
       if decide (wall dt = wall published) then lit "2024-01-01T00:00:00+00:00"
       else lit "2024-05-01T00:00:00+00:00";
     int_of_str := Demo.decimal;
     BeautifulSoup := λ _, page;
     set_iter := remove_dups;
     ET_fromstring := λ _, inr urlset |}.

Definition world : World :=
  {| http_get := λ _ _ _, inr (lit "...");
     time_time := λ _, 1714521600%Z;
     datetime_now := λ _, {| wall := 63850118400000000; tzinfo := None |};
     write_file := λ _ _, None |}.

Definition argv : list str :=
  [ lit "crawl_thairath.py"; lit "--sitemap"; sitemap_url;
    lit "--sections"; lit "politic"; lit "--since-days"; lit "1825" ].

End Scenario.

(** More small inputs: a file system that refuses every write, and one
    stored record. *)
Module Cases.

Definition read_only : World :=
  {| http_get := http_get Demo.world;
     time_time := time_time Demo.world;
     datetime_now := datetime_now Demo.world;
     write_file := λ _ _, Some (OSError (lit "No such file or directory")) |}.

(** A directory in which the file of the investment section cannot be
    written, and every other file can. *)
Definition one_locked : World :=
  {| http_get := http_get Demo.world;
     time_time := time_time Demo.world;
     datetime_now := datetime_now Demo.world;
     write_file := λ _ path,
       if decide (path = lit "out_investment.csv")
       then Some (OSError (lit "Permission denied"))
       else None |}.

Definition record : ArticleRecord :=
  {| agency := lit "thairath";
     section := Some (lit "politic");
     id := lit "101";
     published_iso := [];
     headline := Some (lit "H");
     summary := [];
     content := lit "Body text here.";
     url := Demo.a1 |}.

Definition bad_days : list str :=
  [ lit "crawl_thairath.py"; lit "--sitemap"; Demo.A_url;
    lit "--since-days"; lit "soon" ].

End Cases.

(** A site whose one article lies under the paths of two sections, read by
    an interpreter whose set of section names iterates in the reverse of
    the order in which the names were requested. *)
Module Overlap.

Definition article_url : str := lit "https://x/money/investment/news/politic/7".

Definition urlset : SitemapDoc :=
  {| doc_sitemaps := [];
     doc_urls := [ {| ut_loc := Some (Some article_url); ut_lastmod := None |} ] |}.

Definition lib : PyLib :=
  {| unicode_digit := unicode_digit Scenario.lib;
     fromisoformat := fromisoformat Scenario.lib;
     isoformat := isoformat Scenario.lib;
     int_of_str := int_of_str Scenario.lib;
     BeautifulSoup := BeautifulSoup Scenario.lib;
     set_iter := λ names, reverse (remove_dups names);
     ET_fromstring := λ _, inr urlset |}.

Definition argv : list str :=
  [ lit "crawl_thairath.py"; lit "--sitemap"; Scenario.sitemap_url;
    lit "--sections"; lit "politic,investment" ].

(** The record of the article as the run stores it. *)
Definition stored : ArticleRecord :=
  {| agency := lit "thairath";
     section := Some (lit "investment");
     id := lit "7";
     published_iso := lit "2024-01-01T00:00:00+00:00";
     headline := Some (lit "H");
     summary := [];
     content := lit "Body text here.";
     url := article_url |}.

End Overlap.

(** ** Predicates of the statements *)

(** An entry the loop appends: it has a section, its location is new and
    it is not too old. *)
Definition kept (section_set : list str) (since_date : datetime)
    (seen_locs : gset str) (item : SitemapEntry) : bool :=
  sec_truthy (which_section (loc item) section_set) &&
  bool_decide (loc item ∉ seen_locs) &&
  negb (too_old since_date item).

(** [seen_locs] holds the locations of [filtered], which are distinct. *)
Definition filter_inv (filtered : list SitemapEntry) (seen_locs : gset str) : Prop :=
  NoDup (loc <$> filtered) ∧ ∀ x, x ∈ seen_locs ↔ x ∈ loc <$> filtered.

(** Events of one article: requests go to that article's URL only. *)
Definition only_gets (l : str) (ev : event) : Prop :=
  ∀ u timeout, ev = EvGet u timeout → u = l.

(** Requests made while processing [items] go to their locations. *)
Definition gets_within (items : list SitemapEntry) (ev : event) : Prop :=
  ∀ u timeout, ev = EvGet u timeout → u ∈ loc <$> items.

(** A place where the pattern [/(\d+)(?:$|[/?#])] matches in [u]: after
    [pre] comes a slash, the digits [g], and then [post]. *)
Definition numeric_match (lib : PyLib) (u pre g post : str) : Prop :=
  u = pre ++ 47 :: g ++ post ∧
  g ≠ [] ∧
  forallb (is_digit lib) g = true ∧
  at_end_or_delim post = true.

(** From the spec's words: the last purely numeric segment of the URL's
    path, the path being the URL up to its query or fragment. *)
Fixpoint spec_path (u : str) : str :=
  match u with
  | [] => []
  | c :: u' => if (c =? 63) || (c =? 35) then [] else c :: spec_path u'
  end.

Definition spec_last_numeric_segment (lib : PyLib) (u : str) : option str :=
  last (filter (λ seg, truthy seg && forallb (is_digit lib) seg = true)
          (split (spec_path u) 47)).

(** The spec's reading of the id: the last numeric segment when there is one. *)
Definition spec_id_is_last_segment (lib : PyLib) (w : World) (u : str) : Prop :=
  ∀ seg, spec_last_numeric_segment lib u = Some seg →
         (record_id lib w u tt []).1.1 = Ok seg.

(** The spec's reading of the exit signal: non-zero exactly when the
    sitemap parameter is missing. *)
Definition spec_nonzero_iff_missing (lib : PyLib) (w : World) (argv : list str) : Prop :=
  exit_status (main lib w argv tt []) ≠ Some 0%Z ↔
  parse_args argv !! lit "sitemap" = None.

(** Every file the save loop writes holds the list of one section of
    [results], as it is in the dictionary. *)
Definition written_verbatim (out_csv_base : argval)
    (res : list (str * list ArticleRecord)) (ev : event) : Prop :=
  ∃ sec items path,
    ev = EvWriteCsv path fieldnames items ∧
    (sec, items) ∈ res ∧
    csv_path_for out_csv_base sec = inr path.

(** [seen] has at least [k] elements. *)
Definition seen_at_least (k : nat) (s : sitemap_state) : Prop :=
  (k ≤ size (seen s))%nat.

(** [m] never runs out of fuel and keeps the invariant [I] of the state. *)
Definition safe {S A} (I : S → Prop) (m : M S A) : Prop :=
  ∀ s t, I s → ∃ r s' t', m s t = (r, s', t') ∧ r ≠ OutOfFuel ∧ I s'.

(** [m] always returns and keeps the invariant [I] of the state. *)
Definition returns {S A} (I : S → Prop) (m : M S A) : Prop :=
  ∀ s t, I s → ∃ a s' t', m s t = (Ok a, s', t') ∧ I s'.

(** [s] neither starts nor ends with a whitespace character. *)
Definition trimmed (s : str) : Prop :=
  (∀ c, head s = Some c → isspace c = false) ∧
  (∀ c, last s = Some c → isspace c = false).

(** The URLs requested in a trace, in order. *)
Definition requested (t : trace) : list str :=
  omap (λ ev, match ev with EvGet u _ => Some u | _ => None end) t.

(** [m] never runs out of fuel and keeps the invariant [I] of the state and
    the trace. *)
Definition keeps {S A} (I : S → trace → Prop) (m : M S A) : Prop :=
  ∀ s t, I s t → ∃ r s' t', m s t = (r, s', t') ∧ r ≠ OutOfFuel ∧ I s' t'.

(** What the URL loop of [load_one] appends for a list of [url] elements,
    and whether it reaches the end: an element without a [loc] child stops
    it, one whose [loc] is empty is passed over. *)
Fixpoint read_urls (lib : PyLib) (tags : list UrlTag) : list SitemapEntry * bool :=
  match tags with
  | [] => ([], true)
  | tag :: rest =>
      match ut_loc tag with
      | None => ([], false)
      | Some None | Some (Some []) => read_urls lib rest
      | Some (Some l) =>
          ({| loc := l; lastmod := parse_lastmod lib (ut_lastmod tag) |}
             :: (read_urls lib rest).1,
           (read_urls lib rest).2)
      end
  end.

(** The events of sitemap resolution: requests with the 10-second timeout
    and failure messages. *)
Definition sitemap_event (ev : event) : Prop :=
  (∃ u, ev = EvGet u 10) ∨ (∃ u e, ev = EvPrint (MsgSitemapFail u e)).

(** The first entry of each location, in order. *)
Fixpoint first_per_loc (seen_locs : gset str) (items : list SitemapEntry) :
    list SitemapEntry :=
  match items with
  | [] => []
  | item :: rest =>
      if decide (loc item ∈ seen_locs) then first_per_loc seen_locs rest
      else item :: first_per_loc ({[loc item]} ∪ seen_locs) rest
  end.

(** An entry that has a requested section and is not too old. *)
Definition eligible (section_set : list str) (since_date : datetime)
    (item : SitemapEntry) : Prop :=
  sec_truthy (which_section (loc item) section_set) = true ∧
  too_old since_date item = false.

(** The value [parse_args] gives a flag that is followed by [rest]. *)
Definition flag_value (rest : list str) : argval :=
  match rest with
  | next :: _ => if negb (startswith next (lit "--")) then ArgStr next else ArgTrue
  | [] => ArgTrue
  end.

(** The files the save loop writes for [res] under the base path [base]:
    one per section with records, in the order of the dictionary. *)
Definition csv_writes (base : str) (res : list (str * list ArticleRecord)) : list event :=
  omap (λ '(sec, items),
          match items with
          | [] => None
          | _ :: _ =>
              Some (EvWriteCsv (replace base (lit ".csv") (lit "_" ++ sec ++ lit ".csv"))
                      fieldnames items)
          end) res.

(** A record stored under the key [k] while the loop went through
    [candidates]. *)
Definition record_of (section_set : list str) (candidates : list SitemapEntry)
    (k : str) (r : ArticleRecord) : Prop :=
  section r = Some k ∧
  agency r = lit "thairath" ∧
  id r ≠ [] ∧
  url r ∈ loc <$> candidates ∧
  which_section (url r) section_set = Some k ∧
  section_matches (url r) k = true.

(** The first parameter of [main] that cannot be read, with its exception. *)
Definition parameter_error (lib : PyLib) (w : World) (args : gmap str argval)
    (t : trace) (e : exn) : Prop :=
  match int_arg lib (args !! lit "since-days") 1825 with
  | inl e1 => e = e1
  | inr since_days =>
      match int_arg lib (args !! lit "limit") 0 with
      | inl e2 => e = e2
      | inr _ =>
          match requested_sections
                  (default (ArgStr (lit "economics,investment,tech_innovation,politic"))
                     (args !! lit "sections")) with
          | inl e3 => e = e3
          | inr _ => minus_days (datetime_now w t) since_days = inl e
          end
      end
  end.

(** The rules of the built-in sections as one table: the path that a
    section's prefix and sub-filter together require of a URL. *)
Definition section_paths : list (str * str) :=
  [ (lit "economics", lit "/money/economics/thai_economics/");
    (lit "investment", lit "/money/investment/");
    (lit "tech_innovation", lit "/money/tech_innovation/");
    (lit "politic", lit "/news/politic/");
    (lit "personal_finance", lit "/money/personal_finance/");
    (lit "business_marketing", lit "/money/business_marketing/") ].

(** The rule of the section named [s] matches [u]: [s] is a built-in
    section and [u] contains its path. *)
Definition section_rule (u s : str) : Prop :=
  ∃ path l r, (s, path) ∈ section_paths ∧ u = l ++ path ++ r.

(** [found] is the first name of [order] whose rule matches [u], or [None]
    when the rule of no name of [order] matches. *)
Definition first_match (u : str) (order : list str) (found : option str) : Prop :=
  match found with
  | Some s =>
      ∃ before after,
        order = before ++ s :: after ∧
        section_rule u s ∧
        Forall (λ x, ¬ section_rule u x) before
  | None => Forall (λ x, ¬ section_rule u x) order
  end.

(** The rule as a test, for the spec's reading below. *)
Definition spec_rule (u s : str) : bool :=
  existsb (λ p, bool_decide (p.1 = s) && str_in p.2 u) section_paths.

(** From the spec's words: the requested sections are examined in the
    order in which the caller supplied them, and the first whose rule matches
    is the section. *)
Definition spec_classify (u : str) (requested : list str) : option str :=
  List.find (spec_rule u) requested.

(** The spec's reading for a run: every record written has the section
    that [spec_classify] gives its URL for the sections as requested. *)
Definition spec_caller_order (lib : PyLib) (w : World) (argv : list str) : Prop :=
  ∀ path fields rows r,
    EvWriteCsv path fields rows ∈ (main lib w argv tt []).2 →
    r ∈ rows →
    ∃ sections,
      requested_sections
        (default (ArgStr (lit "economics,investment,tech_innovation,politic"))
           (parse_args argv !! lit "sections")) = inr sections ∧
      section r = spec_classify (url r) sections.

(** An event that writes a file. *)
Definition is_write (ev : event) : Prop :=
  ∃ path fields rows, ev = EvWriteCsv path fields rows.

(** A record stored under the key [k]: [k] is its section, and it is what
    [which_section] gives the record's URL for [section_set]. *)
Definition stored_under (section_set : list str) (k : str) (r : ArticleRecord) : Prop :=
  section r = Some k ∧ which_section (url r) section_set = Some k.

(** * Properties *)

(** ** The string functions on sample inputs *)

Example replace_every_occurrence :
  replace (lit "a.csv.csv") (lit ".csv") (lit "_p.csv") = lit "a_p.csv_p.csv".
Proof. vm_compute. reflexivity. Qed.

Example replace_left_to_right :
  replace (lit "aaa") (lit "aa") (lit "b") = lit "ba".
Proof. vm_compute. reflexivity. Qed.

Example split_keeps_empty_pieces :
  split (lit "a,,b") 44 = [lit "a"; []; lit "b"].
Proof. vm_compute. reflexivity. Qed.

Example csv_escape_sample :
  csv_escape (Some (lit "  a" ++ NL ++ lit "b  ")) = lit "a b".
Proof. vm_compute. reflexivity. Qed.

Example parse_args_sample :
  parse_args [lit "prog"; lit "--a"; lit "1"; lit "--b"; lit "--c"; lit "x"; lit "--a"] =
    {[ lit "a" := ArgTrue; lit "b" := ArgTrue; lit "c" := ArgStr (lit "x") ]}.
Proof. vm_compute. reflexivity. Qed.

Example extract_id_samples :
  extract_id_from_url Demo.lib (lit "https://x/a/123abc/45") = lit "45" ∧
  extract_id_from_url Demo.lib (lit "https://x/a?p=/77#f") = lit "77" ∧
  extract_id_from_url Demo.lib (lit "/12" ++ NL) = lit "12" ∧
  extract_id_from_url Demo.lib (lit "/12" ++ NL ++ NL) = [] ∧
  extract_id_from_url Demo.lib (lit "https://x/news/slug-only") = [].
Proof. vm_compute. repeat split; reflexivity. Qed.

(** ** Section classification *)

Example which_section_politic :
  which_section (lit "https://x/news/politic/12345")
    [lit "economics"; lit "politic"] = Some (lit "politic").
Proof. vm_compute. reflexivity. Qed.

(** A URL under two prefixes goes to whichever section is visited first. *)
Example which_section_overlap :
  let u := lit "https://x/money/investment/news/politic/7" in
  which_section u [lit "politic"; lit "investment"] = Some (lit "politic") ∧
  which_section u [lit "investment"; lit "politic"] = Some (lit "investment").
Proof. vm_compute. split; reflexivity. Qed.

(** The result of [which_section] splits the list it is given at the
    first element that passes the loop's test. *)
Lemma which_section_split (u : str) (sections_set : list str) :
  match which_section u sections_set with
  | Some s =>
      ∃ before after,
        sections_set = before ++ s :: after ∧
        section_matches u s = true ∧
        Forall (λ x, section_matches u x = false) before
  | None => Forall (λ x, section_matches u x = false) sections_set
  end.
Proof.
  induction sections_set as [|s rest IH]; simpl; [constructor|].
  destruct (section_matches u s) eqn:Hs.
  - exists [], rest. repeat split; [done | constructor].
  - destruct (which_section u rest) as [s'|].
    + destruct IH as (before & after & -> & Hm & Hb).
      exists (s :: before), after. repeat split; [done | by constructor].
    + by constructor.
Qed.

Lemma which_section_Some_elem (u : str) (sections_set : list str) (s : str) :
  which_section u sections_set = Some s → s ∈ sections_set.
Proof.
  induction sections_set as [|x rest IH]; simpl; [done|].
  destruct (section_matches u x).
  - intros [= ->]. left.
  - intros H. right. by apply IH.
Qed.

(** ** The filter loop *)

Section Filter.
Context (section_set : list str) (since_date : datetime).

Abbreviation floop := (filter_loop section_set since_date).
Abbreviation kept := (kept section_set since_date).

Lemma filter_loop_cons item rest filtered seen_locs :
  floop (item :: rest) filtered seen_locs =
    if kept seen_locs item
    then floop rest (filtered ++ [item]) ({[loc item]} ∪ seen_locs)
    else floop rest filtered seen_locs.
Proof.
  unfold kept. simpl.
  destruct (sec_truthy _), (bool_decide _), (too_old _ _); reflexivity.
Qed.



Lemma filter_loop_inv all_urls filtered seen_locs :
  filter_inv filtered seen_locs →
  filter_inv (floop all_urls filtered seen_locs).1
             (floop all_urls filtered seen_locs).2.
Proof.
  revert filtered seen_locs.
  induction all_urls as [|item rest IH]; intros filtered seen_locs Hinv; [done|].
  rewrite filter_loop_cons. destruct (kept seen_locs item) eqn:Hk; [|by apply IH].
  apply IH. destruct Hinv as [Hnd Hseen].
  unfold kept in Hk. apply andb_prop in Hk as [Hk _].
  apply andb_prop in Hk as [_ Hk]. apply bool_decide_eq_true in Hk.
  split.
  - rewrite fmap_app. simpl. apply NoDup_app. split; [done|].
    split; [|apply NoDup_singleton].
    intros x Hx Hx'. apply list_elem_of_singleton in Hx'. subst x.
    apply Hk, Hseen, Hx.
  - intros x. rewrite fmap_app, elem_of_app, elem_of_union, elem_of_singleton.
    simpl. rewrite list_elem_of_singleton, Hseen. tauto.
Qed.

(** Every entry of the result was already there or was kept by the loop. *)
Lemma filter_loop_elem all_urls filtered seen_locs item :
  item ∈ (floop all_urls filtered seen_locs).1 →
  item ∈ filtered ∨
  (item ∈ all_urls ∧
   sec_truthy (which_section (loc item) section_set) = true ∧
   too_old since_date item = false).
Proof.
  revert filtered seen_locs.
  induction all_urls as [|x rest IH]; intros filtered seen_locs; [by left|].
  rewrite filter_loop_cons. destruct (kept seen_locs x) eqn:Hk; intros Hin.
  - apply IH in Hin as [Hin | (? & ? & ?)].
    + apply elem_of_app in Hin as [Hin | Hin]; [by left|].
      apply list_elem_of_singleton in Hin. subst x. right.
      unfold kept in Hk. apply andb_prop in Hk as [Hk Hold].
      apply andb_prop in Hk as [Hk _].
      apply negb_true_iff in Hold. split; [left|done].
    + right. split; [by right|done].
  - apply IH in Hin as [Hin | (? & ? & ?)]; [by left|].
    right. split; [by right|done].
Qed.

End Filter.

(** C8: whatever the resolver returned, duplicates included, the locations
    of the filtered candidates are pairwise distinct. *)
Theorem filtered_locations_distinct
    (section_set : list str) (since_date : datetime)
    (all_urls : list SitemapEntry) :
  NoDup (loc <$> (filter_loop section_set since_date all_urls [] ∅).1).
Proof.
  apply (filter_loop_inv section_set since_date all_urls [] ∅).
  split; [constructor|]. intros x. set_solver.
Qed.

(** ** Running the monad *)

Ltac run_monad :=
  repeat progress
    (unfold mbind, M_bind, mret, M_ret, returned, bind, ret, raise,
       try_except, emit, gets, modify, ask, out_of_fuel in *;
     cbn beta iota zeta in *).

(** A loop whose body always returns and re-establishes an invariant of
    the part of the list already visited. *)
Lemma for_each_inv {S A} (I : list A → S → trace → Prop)
    (body : A → M S unit) (xs : list A) :
  ∀ visited,
    (∀ p x q s t, xs = p ++ x :: q → I (visited ++ p) s t →
       ∃ s' t', body x s t = (Ok tt, s', t') ∧ I (visited ++ p ++ [x]) s' t') →
    ∀ s t, I visited s t →
      ∃ s' t', for_each xs body s t = (Ok tt, s', t') ∧ I (visited ++ xs) s' t'.
Proof.
  induction xs as [|x xs IH]; intros visited Hbody s t HI.
  - exists s, t. rewrite app_nil_r. done.
  - destruct (Hbody [] x xs s t eq_refl) as (s1 & t1 & Hx & HI1).
    { by rewrite app_nil_r. }
    simpl in HI1.
    destruct (IH (visited ++ [x])) with (s := s1) (t := t1)
      as (s2 & t2 & Hrest & HI2); [|done|].
    + intros p y q s' t' -> HI'.
      destruct (Hbody (x :: p) y q s' t' eq_refl) as (s3 & t3 & Hy & HI3).
      { by rewrite <- app_assoc in HI'. }
      exists s3, t3. split; [done|]. by rewrite <- !app_assoc in *.
    + exists s2, t2. split; [|by rewrite <- app_assoc in HI2].
      simpl. run_monad. rewrite Hx. exact Hrest.
Qed.

(** ** Dictionaries *)

Lemma dict_get_is_Some {V} (d : list (str * V)) (k : str) :
  is_Some (dict_get d k) ↔ k ∈ d.*1.
Proof.
  induction d as [|[k' v] d IH]; simpl.
  - split; [intros [? ?]; done | intros H; inversion H].
  - destruct (decide (k' = k)) as [->|Hne].
    + split; [intros _; left | by eexists].
    + rewrite IH. split; [by right|].
      intros H. apply elem_of_cons in H as [->|H]; done.
Qed.

Lemma dict_set_keys {V} (d : list (str * V)) (k : str) (v : V) (x : str) :
  x ∈ (dict_set d k v).*1 ↔ x = k ∨ x ∈ d.*1.
Proof.
  induction d as [|[k' v'] d IH]; simpl.
  - rewrite list_elem_of_singleton. split; [by left|].
    intros [H|H]; [done | inversion H].
  - destruct (decide (k' = k)) as [->|Hne]; simpl.
    + rewrite elem_of_cons. tauto.
    + rewrite !elem_of_cons, IH. tauto.
Qed.

(** Assigning to a key that is there changes no key. *)
Lemma dict_set_keys_same {V} (d : list (str * V)) (k : str) (v : V) :
  k ∈ d.*1 → (dict_set d k v).*1 = d.*1.
Proof.
  induction d as [|[k' v'] d IH]; simpl; intros Hk; [inversion Hk|].
  destruct (decide (k' = k)) as [->|Hne]; simpl; [done|].
  f_equal. apply IH. apply elem_of_cons in Hk as [->|Hk]; done.
Qed.

Lemma init_results_keys (sections : list str) (x : str) :
  x ∈ (init_results sections).*1 ↔ x ∈ sections.
Proof.
  unfold init_results.
  assert (∀ d : list (str * list ArticleRecord),
            x ∈ (foldl (λ d s, dict_set d s []) d sections).*1 ↔
            x ∈ d.*1 ∨ x ∈ sections) as H.
  { induction sections as [|s l IH]; intros d; simpl.
    - split; [by left | intros [H|H]; [done | inversion H]].
    - rewrite IH, dict_set_keys, elem_of_cons. tauto. }
  rewrite H. simpl. split; [intros [Hx|Hx]; [inversion Hx | done] | by right].
Qed.

(** ** The retrying fetch *)

(** Both attempts of [fetch_with_fast_retry], unfolded. *)
Lemma fetch_with_fast_retry_run
    (w : World) (S : Type) (u : str) (s : S) (t : trace) :
  fetch_with_fast_retry w u s t =
    match http_get w t u 2 with
    | inr body => (Ok body, s, t ++ [EvGet u 2])
    | inl _ =>
        let t' := t ++ [EvGet u 2; EvSleep 200] in
        match http_get w t' u 3 with
        | inr body => (Ok body, s, t' ++ [EvGet u 3])
        | inl e => (Raise e, s, t' ++ [EvGet u 3])
        end
    end.
Proof.
  unfold fetch_with_fast_retry, fetch_text, sleep. run_monad.
  destruct (http_get w t u 2) as [e1|body]; cbn; [|reflexivity].
  rewrite <- !app_assoc. cbn [app].
  destruct (http_get w _ u 3); reflexivity.
Qed.

(** C9: the first attempt uses the 2-second timeout; if it returns, its
    body is the result and nothing more is requested. If it fails, whatever
    the failure, the client sleeps 200 ms and makes exactly one more attempt
    with the 3-second timeout: its body is the result, or its failure is
    raised to the caller; there is no third attempt. *)
Theorem fetch_with_fast_retry_two_attempts
    (w : World) (S : Type) (u : str) (s : S) (t : trace) :
  (∀ body,
     http_get w t u 2 = inr body →
     fetch_with_fast_retry w u s t = (Ok body, s, t ++ [EvGet u 2])) ∧
  (∀ e1,
     http_get w t u 2 = inl e1 →
     let t' := t ++ [EvGet u 2; EvSleep 200] in
     (∀ body,
        http_get w t' u 3 = inr body →
        fetch_with_fast_retry w u s t = (Ok body, s, t' ++ [EvGet u 3])) ∧
     (∀ e2,
        http_get w t' u 3 = inl e2 →
        fetch_with_fast_retry w u s t = (Raise e2, s, t' ++ [EvGet u 3]))).
Proof.
  rewrite fetch_with_fast_retry_run. split.
  - by intros body ->.
  - intros e1 -> t'. subst t'. cbn zeta. split.
    + by intros body ->.
    + by intros e2 ->.
Qed.

(** ** The processing loop *)

Section Process.
Context (lib : PyLib) (w : World) (section_set : list str).

Lemma record_id_run {S} (l : str) (s : S) (t : trace) :
  ∃ i, record_id lib w l s t = (Ok i, s, t).
Proof.
  unfold record_id. destruct (truthy _); run_monad; eauto.
Qed.

(** [results[sec].append(record)] returns when [sec] is a key. *)
Lemma results_append_key (s : str) (record : ArticleRecord)
    (st : crawl_state) (t : trace) :
  s ∈ (results st).*1 →
  ∃ st', results_append (Some s) record st t = (Ok tt, st', t) ∧
         (results st').*1 = (results st).*1 ∧
         ok st' = ok st ∧ fail st' = fail st ∧ skip st' = skip st.
Proof.
  intros Hk. unfold results_append. run_monad.
  apply dict_get_is_Some in Hk as Hg. destruct Hg as [items ->].
  eexists. split; [reflexivity|]. simpl.
  split; [by apply dict_set_keys_same | done].
Qed.

Lemma results_append_run (sec : option str) (record : ArticleRecord)
    (st : crawl_state) (t : trace) :
  ∃ r st', results_append sec record st t = (r, st', t) ∧
           r ≠ OutOfFuel ∧
           (results st').*1 = (results st).*1 ∧
           ok st' = ok st ∧ fail st' = fail st ∧ skip st' = skip st.
Proof.
  destruct sec as [s|].
  - destruct (decide (s ∈ (results st).*1)) as [Hk|Hk].
    + destruct (results_append_key s record st t Hk) as (st' & -> & ?).
      exists (Ok tt), st'. done.
    + unfold results_append. run_monad.
      destruct (dict_get (results st) s) eqn:Hg.
      { exfalso. apply Hk, dict_get_is_Some. by eexists. }
      exists (Raise KeyError), st. done.
  - unfold results_append. run_monad. exists (Raise KeyError), st. done.
Qed.

(** One iteration always returns: a failure is counted, not raised. Its
    events are requests for the item's location, sleeps and messages, so
    they have every property [P] that those have. *)
Lemma process_item_events (P : event → Prop) (item : SitemapEntry)
    (st : crawl_state) (t : trace) :
  (∀ timeout, P (EvGet (loc item) timeout)) →
  (∀ ms, P (EvSleep ms)) →
  (∀ m, P (EvPrint m)) →
  ∃ st' new,
    process_item lib w section_set item st t = (Ok tt, st', t ++ new) ∧
    Forall P new ∧
    (results st').*1 = (results st).*1 ∧
    (ok st' + fail st' = ok st + fail st + 1)%Z.
Proof.
  intros Hget Hsl Hpr. unfold process_item.
  pose proof (fetch_with_fast_retry_run w crawl_state (loc item) st t) as Hf.
  unfold try_except at 1. unfold mbind at 1, M_bind at 1, bind at 1.
  rewrite Hf. clear Hf.
  assert (∀ e t1 new1, Forall P new1 → t1 = t ++ new1 →
     ∃ st' new,
       (print (MsgFail (loc item) e);; modify incr_fail) st t1 = (Ok tt, st', t ++ new) ∧
       Forall P new ∧
       (results st').*1 = (results st).*1 ∧
       (ok st' + fail st' = ok st + fail st + 1)%Z) as Hfail.
  { intros e t1 new1 Hnew ->. unfold print. run_monad.
    exists (incr_fail st), (new1 ++ [EvPrint (MsgFail (loc item) e)]).
    rewrite app_assoc. split; [done|]. split.
    - apply Forall_app. split; [done|]. by constructor.
    - simpl. split; [done | lia]. }
  assert (∀ body t1 new1, Forall P new1 → t1 = t ++ new1 →
     ∃ st' new,
       match
         (let meta := extract_article lib body (loc item) in
          i ← record_id lib w (loc item);
          results_append (which_section (loc item) section_set)
            {| agency := lit "thairath";
               section := which_section (loc item) section_set;
               id := i;
               published_iso := meta_published_iso meta;
               headline := meta_headline meta;
               summary := meta_summary meta;
               content := meta_content meta;
               url := loc item |};;
          modify incr_ok;; print (MsgSaved (loc item));; sleep 50) st t1
       with
       | (Raise e, s', t') =>
           (print (MsgFail (loc item) e);; modify incr_fail) s' t'
       | r => r
       end = (Ok tt, st', t ++ new) ∧
       Forall P new ∧
       (results st').*1 = (results st).*1 ∧
       (ok st' + fail st' = ok st + fail st + 1)%Z) as Hok.
  { intros body t1 new1 Hnew ->. cbn zeta.
    unfold mbind at 1, M_bind at 1, bind at 1.
    destruct (record_id_run (loc item) st (t ++ new1)) as [i ->].
    unfold mbind at 1, M_bind at 1, bind at 1.
    match goal with |- context [results_append ?sec ?r st _] =>
      destruct (results_append_run sec r st (t ++ new1))
        as (r' & st1 & -> & Hr & Hkeys & Hok & Hfl & _)
    end.
    destruct r' as [[]|e|]; [| |done].
    - unfold print, sleep. run_monad.
      exists (incr_ok st1), (new1 ++ [EvPrint (MsgSaved (loc item)); EvSleep 50]).
      rewrite <- !app_assoc. simpl. split; [done|]. split.
      + apply Forall_app. split; [done|]. by repeat constructor.
      + split; [done | lia].
    - destruct (Hfail e (t ++ new1) new1 Hnew eq_refl)
        as (st' & new & Hrun & Hev & Hk' & Hcnt).
      unfold print in *. run_monad.
      exists (incr_fail st1), (new1 ++ [EvPrint (MsgFail (loc item) e)]).
      rewrite app_assoc. split; [done|]. split.
      + apply Forall_app. split; [done|]. by constructor.
      + simpl. split; [done | lia]. }
  destruct (http_get w t (loc item) 2) as [e1|body].
  - cbn zeta. destruct (http_get w _ (loc item) 3) as [e2|body].
    + apply (Hfail e2 _ [EvGet (loc item) 2; EvSleep 200; EvGet (loc item) 3]).
      * by repeat constructor.
      * by rewrite <- app_assoc.
    + apply (Hok body _ [EvGet (loc item) 2; EvSleep 200; EvGet (loc item) 3]).
      * by repeat constructor.
      * by rewrite <- app_assoc.
  - apply (Hok body _ [EvGet (loc item) 2]); [by repeat constructor | done].
Qed.

Lemma process_item_run (item : SitemapEntry) (st : crawl_state) (t : trace) :
  ∃ st' new,
    process_item lib w section_set item st t = (Ok tt, st', t ++ new) ∧
    Forall (only_gets (loc item)) new ∧
    (results st').*1 = (results st).*1 ∧
    (ok st' + fail st' = ok st + fail st + 1)%Z.
Proof.
  apply process_item_events.
  - intros timeout u timeout' [= <- _]. done.
  - intros ms u timeout [=].
  - intros m u timeout [=].
Qed.
End Process.

Section Loop.
Context (lib : PyLib) (w : World) (section_set : list str).

(** The whole loop returns; it keeps the keys of [results] and counts
    every candidate as saved or failed. *)
Lemma process_loop_run (items : list SitemapEntry) (st : crawl_state) (t : trace) :
  ∃ st' new,
    for_each items (process_item lib w section_set) st t = (Ok tt, st', t ++ new) ∧
    Forall (gets_within items) new ∧
    (results st').*1 = (results st).*1 ∧
    (ok st' + fail st' = ok st + fail st + Z.of_nat (length items))%Z.
Proof.
  pose (I := λ (visited : list SitemapEntry) (s' : crawl_state) (t' : trace),
          ∃ new, t' = t ++ new ∧ Forall (gets_within visited) new ∧
                 (results s').*1 = (results st).*1 ∧
                 (ok s' + fail s' = ok st + fail st + Z.of_nat (length visited))%Z).
  destruct (for_each_inv I (process_item lib w section_set) items []) with (s := st) (t := t)
    as (s' & t' & Hrun & new & -> & Hev & Hkeys & Hcnt).
  - intros p x q s1 t1 _ (new1 & -> & Hev1 & Hk1 & Hc1). simpl in *.
    destruct (process_item_run lib w section_set x s1 (t ++ new1))
      as (s2 & new2 & Hrun & Hev2 & Hk2 & Hc2).
    exists s2, ((t ++ new1) ++ new2). split; [done|].
    exists (new1 ++ new2). rewrite app_assoc. split; [done|].
    split; [|split; [congruence | rewrite length_app; simpl; lia]].
    apply Forall_app. split.
    + eapply Forall_impl; [exact Hev1|]. intros ev Hin u to ->.
      rewrite fmap_app. apply elem_of_app. left. by eapply Hin.
    + eapply Forall_impl; [exact Hev2|]. intros ev Hin u to ->.
      rewrite fmap_app. apply elem_of_app. right. simpl.
      apply list_elem_of_singleton. by eapply Hin.
  - exists []. rewrite app_nil_r. simpl. repeat split; [constructor | lia].
  - exists s', new. done.
Qed.
End Loop.

(** ** Recency *)



(** ** The per-section append *)

(** C10: every filtered candidate is classified again, by the same call, to
    a section that is present and non-empty; that section is a key of the
    [results] dictionary built from the requested sections, and when the
    loop reaches the candidate, after any earlier candidates, the append to
    [results[sec]] returns without [KeyError]. *)
Theorem section_key_present
    (lib : PyLib) (w : World) (sections : list str) (since_date : datetime)
    (all_urls : list SitemapEntry) (item : SitemapEntry)
    (Hset : ∀ x, x ∈ set_iter lib sections → x ∈ sections) :
  let section_set := set_iter lib sections in
  let filtered := (filter_loop section_set since_date all_urls [] ∅).1 in
  item ∈ filtered →
  ∃ s,
    which_section (loc item) section_set = Some s ∧
    s ≠ [] ∧
    s ∈ (init_results sections).*1 ∧
    ∀ pre post t0 record,
      filtered = pre ++ item :: post →
      let r := for_each pre (process_item lib w section_set)
                 {| results := init_results sections; ok := 0; skip := 0; fail := 0 |} t0 in
      ∃ st', results_append (which_section (loc item) section_set) record r.1.2 r.2
             = (Ok tt, st', r.2).
Proof.
  intros section_set filtered Hin.
  apply filter_loop_elem in Hin as [Hin | (_ & Hsec & _)]; [inversion Hin|].
  destruct (which_section (loc item) section_set) as [s|] eqn:Hws; [|done].
  assert (s ∈ (init_results sections).*1) as Hkey.
  { apply init_results_keys, Hset. by eapply which_section_Some_elem. }
  exists s. split; [done|]. split; [by destruct s|]. split; [done|].
  intros pre post t0 record _ r. subst r.
  destruct (process_loop_run lib w section_set pre
              {| results := init_results sections; ok := 0; skip := 0; fail := 0 |} t0)
    as (st & new & -> & _ & Hkeys & _). simpl in *.
  destruct (results_append_key s record st (t0 ++ new)) as (st' & -> & _).
  - by rewrite Hkeys.
  - by exists st'.
Qed.

(** ** The record id *)

Section RecordId.
Context (lib : PyLib).

Lemma delim_not_digit (c : N) : is_delim c = true → is_digit lib c = false.
Proof.
  unfold is_delim, is_digit. intros H.
  repeat (apply orb_prop in H as [H|H]); apply N.eqb_eq in H; subst c; reflexivity.
Qed.

(** Where the pattern's tail matches, no further digit can be taken. *)
Lemma match_digits_at_end (post : str) :
  at_end_or_delim post = true → match_digits lib post = None.
Proof.
  destruct post as [|c post]; [done|]. simpl.
  destruct (is_digit lib c) eqn:Hd; [|done]. intros H. exfalso.
  assert (c = 10 ∨ is_delim c = true) as [-> | Hc].
  { destruct post; [|by right]. apply orb_prop in H as [H|H]; [|by right].
    left. by apply N.eqb_eq. }
  - unfold is_digit in Hd. simpl in Hd. done.
  - apply delim_not_digit in Hc. congruence.
Qed.

Lemma match_digits_complete (g post : str) :
  g ≠ [] → forallb (is_digit lib) g = true → at_end_or_delim post = true →
  match_digits lib (g ++ post) = Some g.
Proof.
  intros Hne Hd Hpost. induction g as [|c g IH]; [done|].
  simpl in Hd. apply andb_prop in Hd as [Hc Hd]. simpl. rewrite Hc.
  destruct g as [|c' g].
  - simpl. by rewrite match_digits_at_end, Hpost.
  - by rewrite IH.
Qed.

Lemma match_digits_sound (s g : str) :
  match_digits lib s = Some g →
  ∃ post, s = g ++ post ∧ g ≠ [] ∧ forallb (is_digit lib) g = true ∧
          at_end_or_delim post = true.
Proof.
  revert g. induction s as [|c s IH]; intros g; simpl; [done|].
  destruct (is_digit lib c) eqn:Hc; [|done].
  destruct (match_digits lib s) as [g'|] eqn:Hm.
  - intros [= <-]. destruct (IH g' eq_refl) as (post & -> & _ & Hd & Hpost).
    exists post. simpl. by rewrite Hc, Hd.
  - destruct (at_end_or_delim s) eqn:Hs; [|done]. intros [= <-].
    exists s. simpl. by rewrite Hc.
Qed.

Lemma re_search_cons (c : N) (u : str) :
  re_search lib (c :: u) =
    match (if c =? 47 then match_digits lib u else None) with
    | Some g => Some g
    | None => re_search lib u
    end.
Proof. reflexivity. Qed.

(** A match at the very start of [c :: u]. *)
Lemma numeric_match_head (c : N) (u g post : str) :
  numeric_match lib (c :: u) [] g post →
  (if c =? 47 then match_digits lib u else None) = Some g.
Proof.
  intros (Hu & Hne & Hd & Hpost). simpl in Hu. injection Hu as -> ->.
  simpl. by apply match_digits_complete.
Qed.

Lemma numeric_match_tail (c : N) (u pre g post : str) :
  numeric_match lib (c :: u) (c :: pre) g post ↔ numeric_match lib u pre g post.
Proof.
  unfold numeric_match. simpl. split.
  - intros (Hu & ?). injection Hu as ->. done.
  - intros (-> & ?). done.
Qed.

Lemma numeric_match_cons_inv (c : N) (u pre g post : str) :
  numeric_match lib (c :: u) pre g post →
  pre = [] ∨ ∃ pre', pre = c :: pre' ∧ numeric_match lib u pre' g post.
Proof.
  intros H. destruct pre as [|c' pre']; [by left|]. right.
  assert (c' = c) as ->. { destruct H as (Hu & _). by injection Hu. }
  exists pre'. split; [done|]. exact (proj1 (numeric_match_tail c u pre' g post) H).
Qed.

(** [re.search] returns the digits of the leftmost match. *)
Lemma re_search_leftmost (u g : str) :
  re_search lib u = Some g →
  ∃ pre post,
    numeric_match lib u pre g post ∧
    ∀ pre' g' post', numeric_match lib u pre' g' post' → (length pre ≤ length pre')%nat.
Proof.
  revert g. induction u as [|c u IH]; intros g; [done|].
  rewrite re_search_cons.
  destruct (if c =? 47 then match_digits lib u else None) as [g0|] eqn:Hhead.
  - intros [= <-]. destruct (c =? 47) eqn:Hc; [|done].
    apply N.eqb_eq in Hc. subst c.
    apply match_digits_sound in Hhead as (post & -> & Hne & Hd & Hpost).
    exists [], post. split; [done|]. intros. simpl. lia.
  - intros Hs. destruct (IH g Hs) as (pre & post & Hm & Hleft).
    exists (c :: pre), post.
    split; [exact (proj2 (numeric_match_tail c u pre g post) Hm)|].
    intros pre' g' post' Hm'.
    apply numeric_match_cons_inv in Hm' as Hcases.
    destruct Hcases as [-> | (pre'' & -> & Hm'')].
    + apply numeric_match_head in Hm'. congruence.
    + simpl. apply Hleft in Hm''. lia.
Qed.

Lemma re_search_none (u : str) :
  re_search lib u = None → ∀ pre g post, ¬ numeric_match lib u pre g post.
Proof.
  induction u as [|c u IH]; intros Hs pre g post Hm.
  - destruct Hm as (Hu & _). by destruct pre.
  - rewrite re_search_cons in Hs.
    destruct (if c =? 47 then match_digits lib u else None) eqn:Hhead; [done|].
    apply numeric_match_cons_inv in Hm as Hcases.
    destruct Hcases as [-> | (pre' & -> & Hm')].
    + apply numeric_match_head in Hm. congruence.
    + by eapply IH.
Qed.

(** Two matches that start at the same place capture the same digits. *)
Lemma numeric_match_same_start (u pre g post pre' g' post' : str) :
  numeric_match lib u pre g post → numeric_match lib u pre' g' post' →
  length pre = length pre' → g = g'.
Proof.
  intros (Hu & Hne & Hd & Hpost) (Hu' & Hne' & Hd' & Hpost') Hlen.
  rewrite Hu in Hu'. apply app_inj_1 in Hu' as [_ Htl]; [|done].
  injection Htl as Htl.
  pose proof (match_digits_complete g post Hne Hd Hpost) as H1.
  pose proof (match_digits_complete g' post' Hne' Hd' Hpost') as H2.
  rewrite Htl in H1. congruence.
Qed.

Lemma str_of_int_nonempty (n : Z) : str_of_int n ≠ [].
Proof.
  unfold str_of_int, NilZero.string_of_int.
  destruct (Z.to_int n) as [d|d]; [|done].
  unfold NilZero.string_of_uint. destruct d; done.
Qed.
End RecordId.

(** C1, as stated, fails: with two numeric segments the id is the first. *)
Lemma id_is_not_last_segment :
  ¬ spec_id_is_last_segment Demo.lib Demo.world
      (lit "https://x/news/politic/2024/2771234").
Proof.
  intros H. specialize (H (lit "2771234") eq_refl). vm_compute in H. discriminate H.
Qed.

(** C1, amended: the id is the run of digits of the leftmost place in the
    URL where a slash is followed by digits and then by the end of the
    string or one of [/], [?], [#]; when there is no such place it is the
    decimal text of the current Unix time; in both cases it is non-empty. *)
Theorem record_id_first_numeric_segment
    (lib : PyLib) (w : World) (S : Type) (u : str) (s : S) (t : trace) :
  ∃ i,
    record_id lib w u s t = (Ok i, s, t) ∧
    i ≠ [] ∧
    ((∃ pre post,
        numeric_match lib u pre i post ∧
        ∀ pre' g' post',
          numeric_match lib u pre' g' post' → (length pre ≤ length pre')%nat) ∨
     ((∀ pre g post, ¬ numeric_match lib u pre g post) ∧
      i = str_of_int (time_time w t))).
Proof.
  unfold record_id, extract_id_from_url.
  destruct (re_search lib u) as [g|] eqn:Hs.
  - destruct (re_search_leftmost lib u g Hs) as (pre & post & Hm & Hleft).
    assert (g ≠ []) as Hne by apply Hm.
    assert (truthy g = true) as -> by (by destruct g).
    exists g. split; [done|]. split; [done|]. left. by exists pre, post.
  - simpl. eexists. split; [reflexivity|]. split; [apply str_of_int_nonempty|].
    right. split; [|done]. by apply re_search_none.
Qed.

(** ** Sitemap resolution *)

(** Computations that never run out of fuel, or that always return,
    while keeping an invariant of the local state. *)
Section Safe.
Context {S : Type} (I : S → Prop).

Abbreviation safe := (safe I).
Abbreviation returns := (returns I).

Lemma returns_safe {A} (m : M S A) : returns m → safe m.
Proof.
  intros H s t Hs. destruct (H s t Hs) as (a & s' & t' & -> & Hs').
  by exists (Ok a), s', t'.
Qed.

Lemma safe_bind {A B} (m : M S A) (k : A → M S B) :
  safe m → (∀ a, safe (k a)) → safe (m ≫= k).
Proof.
  intros Hm Hk s t Hs. run_monad.
  destruct (Hm s t Hs) as (r & s1 & t1 & -> & Hr & Hs1).
  destruct r as [a|e|]; [|by exists (Raise e), s1, t1|done].
  apply Hk, Hs1.
Qed.

Lemma returns_try_except {A} (m : M S A) (h : exn → M S A) :
  safe m → (∀ e, returns (h e)) → returns (try_except m h).
Proof.
  intros Hm Hh s t Hs. unfold try_except.
  destruct (Hm s t Hs) as (r & s1 & t1 & -> & Hr & Hs1).
  destruct r as [a|e|]; [by exists a, s1, t1| |done].
  apply Hh, Hs1.
Qed.

Lemma safe_for_each {A} (xs : list A) (body : A → M S unit) :
  (∀ x, safe (body x)) → safe (for_each xs body).
Proof.
  intros Hbody. induction xs as [|x xs IH]; simpl.
  - intros s t Hs. by exists (Ok tt), s, t.
  - apply safe_bind; [apply Hbody | intros _; apply IH].
Qed.

Lemma safe_fetch_text (w : World) (u : str) (timeout : Z) :
  safe (fetch_text w u timeout).
Proof.
  intros s t Hs. unfold fetch_text. run_monad.
  destruct (http_get w t u timeout) as [e|body]; eexists _, s, _; done.
Qed.

Lemma safe_returned {A} (r : exn + A) : safe (returned r).
Proof.
  intros s t Hs. destruct r as [e|a]; run_monad; eexists _, s, t; done.
Qed.
End Safe.

Section Termination.
Context (lib : PyLib) (w : World) (max_sitemaps : Z).

Lemma size_seen_add (l : str) (s : sitemap_state) :
  l ∉ seen s → size (seen (seen_add l s)) = Datatypes.S (size (seen s)).
Proof.
  intros Hl. simpl. rewrite size_union, size_singleton; [done|]. set_solver.
Qed.

(** With one unit of fuel for every sitemap still allowed, and one more,
    [load_one] returns: the guard on [len(seen)] stops the recursion
    before the fuel does. *)
Lemma load_one_returns (fuel : nat) :
  ∀ (u : str) (k : nat),
    (max_sitemaps < Z.of_nat k + Z.of_nat fuel)%Z →
    returns (seen_at_least k) (load_one lib w max_sitemaps fuel u).
Proof.
  induction fuel as [|fuel IH]; intros u k Hfuel s t Hs.
  - simpl. run_monad. unfold seen_at_least in Hs.
    destruct (Z.leb_spec max_sitemaps (Z.of_nat (size (seen s)))); [|lia].
    by exists tt, s, t.
  - simpl. unfold mbind at 1, M_bind at 1, bind at 1, gets at 1.
    destruct (Z.leb_spec max_sitemaps (Z.of_nat (size (seen s)))).
    { by exists tt, s, t. }
    apply returns_try_except; [|intros e s1 t1 Hs1|done].
    2:{ unfold print. run_monad. by exists tt, s1, (t1 ++ [EvPrint (MsgSitemapFail u e)]). }
    apply safe_bind; [apply safe_fetch_text|]. intros xml_content.
    apply safe_bind; [apply safe_returned|]. intros doc.
    apply safe_bind; [|intros _].
    + apply safe_for_each. intros sitemap s1 t1 Hs1.
      destruct sitemap as [[l|]|]; unfold child_text; run_monad;
        [|by exists (Ok tt), s1, t1|by exists (Raise AttributeError), s1, t1].
      destruct (truthy l && bool_decide (l ∉ seen s1)) eqn:Hnew;
        [|by exists (Ok tt), s1, t1].
      apply andb_prop in Hnew as [_ Hnew]. apply bool_decide_eq_true in Hnew.
      destruct (IH l (Datatypes.S k)) with (s := seen_add l s1) (t := t1)
        as ([] & s2 & t2 & Hrun & Hs2); [lia| |].
      * unfold seen_at_least in *. rewrite size_seen_add; [lia|done].
      * exists (Ok tt), s2, t2. rewrite Hrun. split; [done|]. split; [done|].
        unfold seen_at_least in *. lia.
    + apply safe_for_each. intros url_tag s1 t1 Hs1.
      destruct (ut_loc url_tag) as [[l|]|]; unfold child_text; run_monad;
        [|by exists (Ok tt), s1, t1|by exists (Raise AttributeError), s1, t1].
      destruct (truthy l); [|by exists (Ok tt), s1, t1].
      eexists (Ok tt), _, t1. split; [reflexivity|]. split; [done|]. exact Hs1.
Qed.
End Termination.

(** The resolver always returns a list: it neither raises nor runs out of
    the model's fuel, whatever the sitemap graph. *)
Lemma fetch_sitemap_urls_returns (lib : PyLib) (w : World) (S : Type)
    (root_url : str) (max_sitemaps : Z) (s : S) (t : trace) :
  ∃ entries t',
    fetch_sitemap_urls lib w root_url max_sitemaps s t = (Ok entries, s, t').
Proof.
  unfold fetch_sitemap_urls, with_locals. run_monad.
  destruct (load_one_returns lib w max_sitemaps (Datatypes.S (Z.to_nat max_sitemaps))
              root_url 0) with (s := {| seen := ∅; urls := [] |}) (t := t)
    as ([] & s' & t' & -> & _).
  - lia.
  - unfold seen_at_least. lia.
  - by eexists _, _.
Qed.

(** C2: on the two-sitemap cycle, started at A, the resolver stops, but it
    requests A twice and returns A's entry twice: the root is never put in
    [seen], so B's reference to it is followed. *)
Theorem cyclic_root_loaded_twice :
  fetch_sitemap_urls Demo.lib Demo.world (S := unit) Demo.A_url 500 tt [] =
    (Ok [ {| loc := Demo.a1; lastmod := None |};
          {| loc := Demo.b1; lastmod := None |};
          {| loc := Demo.a1; lastmod := None |} ],
     tt,
     [ EvGet Demo.A_url 10; EvGet Demo.B_url 10; EvGet Demo.A_url 10 ]).
Proof. vm_compute. reflexivity. Qed.

(** ** Completion status *)

(** C5, as stated, fails: without [--sitemap] the run prints its message and
    [main] returns, so the status is 0. *)
Lemma missing_sitemap_status_zero :
  ¬ spec_nonzero_iff_missing Demo.lib Demo.world [lit "crawl_thairath.py"].
Proof.
  unfold spec_nonzero_iff_missing. intros [_ H].
  apply H; vm_compute; reflexivity.
Qed.

Lemma save_outputs_run {S} (w : World) (out_csv_base : argval)
    (res : list (str * list ArticleRecord)) (s : S) (t : trace) :
  ∃ r new,
    save_outputs w out_csv_base res s t = (r, s, t ++ new) ∧
    r ≠ OutOfFuel ∧
    Forall (written_verbatim out_csv_base res) new ∧
    ((∀ sec, is_Some (dict_get res sec) → ∃ p, csv_path_for out_csv_base sec = inr p) →
     (∀ t' p, write_file w t' p = None) →
     r = Ok tt).
Proof.
  unfold save_outputs. revert t.
  induction res as [|[sec items] res IH]; intros t.
  - exists (Ok tt), []. rewrite app_nil_r. repeat split; [done | constructor].
  - assert (∀ ev, written_verbatim out_csv_base res ev →
                  written_verbatim out_csv_base ((sec, items) :: res) ev) as Hmono.
    { intros ev (sec' & items' & path & -> & Hin & Hp).
      exists sec', items', path. split; [done|]. split; [by right | done]. }
    assert (∀ k, (∀ sec0, is_Some (dict_get ((sec, items) :: res) sec0) → k sec0) →
                 ∀ sec0, is_Some (dict_get res sec0) → k sec0) as Hkeys.
    { intros k Hk sec0 Hs. apply Hk. simpl.
      destruct (decide (sec = sec0)); [by eexists | done]. }
    simpl. run_monad. destruct items as [|first items].
    + destruct (IH t) as (r & new & -> & Hr & Hev & Hok).
      exists r, new. split; [done|]. split; [done|]. split.
      * eapply Forall_impl; [exact Hev | exact Hmono].
      * intros Hp Hw. apply Hok; [|done]. by apply (Hkeys (λ x, ∃ p, _ x = inr p)).
    + destruct (csv_path_for out_csv_base sec) as [e|path] eqn:Hpath.
      { exists (Raise e), []. rewrite app_nil_r. split; [done|]. split; [done|].
        split; [constructor|]. intros Hp _.
        destruct (Hp sec) as [p Hp']; [|congruence].
        simpl. destruct (decide (sec = sec)); [by eexists | done]. }
      assert (written_verbatim out_csv_base ((sec, first :: items) :: res)
                (EvWriteCsv path fieldnames (first :: items))) as Hthis.
      { exists sec, (first :: items), path. split; [done|]. split; [left | done]. }
      destruct (write_file w (t ++ [EvWriteCsv path fieldnames (first :: items)]) path)
        as [e|] eqn:Hw.
      { exists (Raise e), [EvWriteCsv path fieldnames (first :: items)].
        split; [done|]. split; [done|]. split; [by constructor|].
        intros _ Hok. rewrite Hok in Hw. done. }
      destruct (IH (t ++ [EvWriteCsv path fieldnames (first :: items)]))
        as (r & new & -> & Hr & Hev & Hok).
      exists r, (EvWriteCsv path fieldnames (first :: items) :: new).
      rewrite <- app_assoc. split; [done|]. split; [done|]. split.
      * constructor; [done|]. eapply Forall_impl; [exact Hev | exact Hmono].
      * intros Hp Hwr. apply Hok; [|done]. by apply (Hkeys (λ x, ∃ p, _ x = inr p)).
Qed.

(** C5, amended: when [--sitemap] is missing or empty the run only prints
    its message and returns with status 0, with no request made; the
    processing loop returns whatever the fetches do, each candidate counted
    once as saved or failed; and a run whose parameters parse and whose
    files can be written returns with status 0 whatever the requests
    answer. *)
Theorem run_completion_status (lib : PyLib) (w : World) :
  (∀ argv t,
     parse_args argv !! lit "sitemap" = None ∨
     parse_args argv !! lit "sitemap" = Some (ArgStr []) →
     main lib w argv tt t = (Ok tt, tt, t ++ [EvPrint MsgSitemapRequired]) ∧
     exit_status (main lib w argv tt t) = Some 0%Z) ∧
  (∀ section_set filtered st t,
     ∃ st' t',
       for_each filtered (process_item lib w section_set) st t = (Ok tt, st', t') ∧
       (ok st' + fail st' = ok st + fail st + Z.of_nat (length filtered))%Z) ∧
  (∀ argv t sitemap_url since_days limit sections since_date base,
     let args := parse_args argv in
     args !! lit "sitemap" = Some sitemap_url →
     sitemap_url ≠ ArgStr [] →
     int_arg lib (args !! lit "since-days") 1825 = inr since_days →
     int_arg lib (args !! lit "limit") 0 = inr limit →
     requested_sections
       (default (ArgStr (lit "economics,investment,tech_innovation,politic"))
          (args !! lit "sections")) = inr sections →
     minus_days (datetime_now w t) since_days = inr since_date →
     default (ArgStr (lit "data/thairath_dataset.csv")) (args !! lit "out-csv")
       = ArgStr base →
     (∀ t' p, write_file w t' p = None) →
     ∃ t', main lib w argv tt t = (Ok tt, tt, t') ∧
           exit_status (main lib w argv tt t) = Some 0%Z).
Proof.
  split; [|split].
  - intros argv t H.
    assert (main lib w argv tt t = (Ok tt, tt, t ++ [EvPrint MsgSitemapRequired])) as Hm.
    { unfold main. destruct H as [-> | ->]; reflexivity. }
    split; [done|]. unfold exit_status. by rewrite Hm.
  - intros section_set filtered st t.
    destruct (process_loop_run lib w section_set filtered st t)
      as (st' & new & Hrun & _ & _ & Hcnt).
    by exists st', (t ++ new).
  - intros argv t sitemap_url since_days limit sections since_date base args
      Hsm Hne Hsd Hlim Hsec Hsince Hbase Hwrite.
    assert (∃ t', main lib w argv tt t = (Ok tt, tt, t')) as [t' Hm].
    2:{ exists t'. split; [done|]. unfold exit_status. by rewrite Hm. }
    unfold main. fold args. rewrite Hsm, Hsd, Hlim, Hsec, Hbase.
    assert (∃ t',
      (now ← ask (datetime_now w);
       since_date ← returned (minus_days now since_days);
       print (MsgFetchingSitemap sitemap_url);;
       all_urls ← fetch_sitemap_urls lib w (str_of_argval sitemap_url) 500;
       let filtered :=
         (filter_loop (set_iter lib sections) since_date all_urls [] ∅).1 in
       r ← with_locals
             {| results := init_results sections; ok := 0; skip := 0; fail := 0 |}
             (for_each filtered (process_item lib w (set_iter lib sections)));
       save_outputs w (ArgStr base) (results r.2);;
       print (MsgDone (ok r.2) (skip r.2) (fail r.2))) tt t = (Ok tt, tt, t'))
      as [t' Hrun].
    { unfold print. run_monad. rewrite Hsince. cbn.
      destruct (fetch_sitemap_urls_returns lib w unit (str_of_argval sitemap_url) 500 tt
                  (t ++ [EvPrint (MsgFetchingSitemap sitemap_url)]))
        as (entries & t1 & ->).
      unfold with_locals.
      destruct (process_loop_run lib w (set_iter lib sections)
                  (filter_loop (set_iter lib sections) since_date entries [] ∅).1
                  {| results := init_results sections; ok := 0; skip := 0; fail := 0 |} t1)
        as (st' & new & -> & _). cbn.
      destruct (save_outputs_run (S := unit) w (ArgStr base) (results st') tt (t1 ++ new))
        as (r & new' & -> & _ & _ & Hok).
      rewrite Hok; [by eexists | by eexists | done]. }
    exists t'. destruct sitemap_url as [[|c l]|]; [done | exact Hrun | exact Hrun].
Qed.

(** ** Extraction and output *)

(** The run of the specification's end-to-end scenario writes the record
    the specification gives. *)
Example end_to_end_scenario :
  (main Scenario.lib Scenario.world Scenario.argv tt []).2 !! 5%nat =
    Some (EvWriteCsv (lit "data/thairath_dataset_politic.csv") fieldnames
            [ {| agency := lit "thairath";
                 section := Some (lit "politic");
                 id := lit "12345";
                 published_iso := lit "2024-01-01T00:00:00+00:00";
                 headline := Some (lit "H");
                 summary := [];
                 content := lit "Body text here.";
                 url := Scenario.article_url |} ]).
Proof. vm_compute. reflexivity. Qed.

(** The headline is [None] exactly when the page has an [og:title] tag
    without a [content] attribute. *)
Lemma headline_None_iff (lib : PyLib) (html u : str) :
  meta_headline (extract_article lib html u) = None ↔
  ∃ og_title,
    soup_find (BeautifulSoup lib html) (lit "meta") (lit "property") (lit "og:title")
      = Some og_title ∧
    tag_get og_title (lit "content") = None.
Proof.
  unfold extract_article. cbn [meta_headline].
  destruct (soup_find _ (lit "meta") (lit "property") (lit "og:title")) as [og|].
  - split; [by exists og | by intros (? & [= <-] & ?)].
  - split; [|by intros (? & [=] & _)].
    by destruct (first_tag _ _).
Qed.

(** C6: for a page whose [og:title] tag has no [content] attribute the
    headline of the returned dict is [None], not the empty string; the
    sibling lookup for the summary passes the default [""] and gives [""]. *)
Theorem headline_none_without_content :
  extract_article Demo.lib (lit "<html>") Demo.a1 =
    {| meta_url := Demo.a1;
       meta_headline := None;
       meta_summary := [];
       meta_content := lit "Para one" ++ NL ++ lit "Para two";
       meta_published_iso := [] |}.
Proof. vm_compute. reflexivity. Qed.

(** [csv_escape] leaves no newline in its result. *)
Lemma replace_from_NL_cons (c : N) (s : str) :
  replace_from NL (lit " ") (c :: s) 0 =
    if 10 =? c then 32 :: replace_from NL (lit " ") s 0
    else c :: replace_from NL (lit " ") s 0.
Proof.
  unfold NL. cbn [replace_from startswith].
  replace (startswith s []) with true by (by destruct s).
  destruct (10 =? c); reflexivity.
Qed.

Lemma replace_from_no_newline (s : str) (skip : nat) :
  10 ∉ replace_from NL (lit " ") s skip.
Proof.
  revert skip. induction s as [|c s IH]; intros skip.
  { destruct skip; intros H; inversion H. }
  destruct skip as [|k]; [|apply IH].
  rewrite replace_from_NL_cons. intros H.
  destruct (N.eqb_spec 10 c) as [Hc|Hc];
    apply elem_of_cons in H as [H|H]; try done; by apply IH in H.
Qed.

Lemma lstrip_suffix (s : str) : lstrip s `suffix_of` s.
Proof.
  induction s as [|c s IH]; simpl; [done|].
  destruct (isspace c); [by apply suffix_cons_r | done].
Qed.

Lemma strip_elem (c : N) (s : str) : c ∈ strip s → c ∈ s.
Proof.
  unfold strip, rstrip. intros H. rewrite elem_of_reverse in H.
  destruct (lstrip_suffix (reverse (lstrip s))) as [k1 Hk1].
  assert (c ∈ reverse (lstrip s)) as H1.
  { rewrite Hk1. apply elem_of_app. by right. }
  rewrite elem_of_reverse in H1.
  destruct (lstrip_suffix s) as [k2 Hk2]. rewrite Hk2. apply elem_of_app. by right.
Qed.

Lemma csv_escape_no_newline (val : option str) : 10 ∉ csv_escape val.
Proof.
  destruct val as [v|]; simpl; [|by intros H; inversion H].
  intros H. apply strip_elem in H. by apply replace_from_no_newline in H.
Qed.

(** C4: the run on the demo site writes the politic CSV with the record as
    it was built: its [content] still holds the newline between the two
    paragraphs, where [csv_escape] would have put a space. Nothing in
    [main] calls [csv_escape]. *)
Theorem rows_written_unescaped :
  let r := {| agency := lit "thairath";
              section := Some (lit "politic");
              id := lit "101";
              published_iso := [];
              headline := None;
              summary := [];
              content := lit "Para one" ++ NL ++ lit "Para two";
              url := Demo.a1 |} in
  EvWriteCsv (lit "data/thairath_dataset_politic.csv") fieldnames [r]
    ∈ (main Demo.lib Demo.world Demo.argv tt []).2 ∧
  10 ∈ content r ∧
  csv_escape (Some (content r)) = lit "Para one Para two".
Proof.
  intros r. split; [|split].
  - apply list_elem_of_lookup. exists 11%nat. vm_compute. reflexivity.
  - apply list_elem_of_lookup. exists 8%nat. reflexivity.
  - vm_compute. reflexivity.
Qed.

(** ** Instances *)


Lemma fetch_with_fast_retry_two_attempts_witness :
  fetch_with_fast_retry Demo.world Demo.a1 tt [] =
    (Ok (lit "<html>"), tt, [EvGet Demo.a1 2]) ∧
  fetch_with_fast_retry Demo.flaky Demo.a1 tt [] =
    (Ok (lit "<html>"), tt, [EvGet Demo.a1 2; EvSleep 200; EvGet Demo.a1 3]) ∧
  fetch_with_fast_retry Demo.world Demo.b1 tt [] =
    (Raise (RequestException (lit "404")), tt,
     [EvGet Demo.b1 2; EvSleep 200; EvGet Demo.b1 3]).
Proof.
  split; [|split].
  - by apply (proj1 (fetch_with_fast_retry_two_attempts Demo.world unit Demo.a1 tt [])).
  - destruct (fetch_with_fast_retry_two_attempts Demo.flaky unit Demo.a1 tt [])
      as [_ H].
    by apply (H (RequestException (lit "timeout")) eq_refl).
  - destruct (fetch_with_fast_retry_two_attempts Demo.world unit Demo.b1 tt [])
      as [_ H].
    by apply (H (RequestException (lit "404")) eq_refl).
Defined.

Lemma section_key_present_witness :
  ∃ s, which_section Demo.a1 (set_iter Demo.lib [lit "politic"]) = Some s ∧
       s ∈ (init_results [lit "politic"]).*1.
Proof.
  pose (entry := {| loc := Demo.a1; lastmod := None |}).
  destruct (section_key_present Demo.lib Demo.world [lit "politic"]
              {| wall := 0; tzinfo := None |} [entry] entry)
    as (s & Hs & _ & Hk & _).
  - intros x Hx. simpl in Hx. by apply elem_of_remove_dups in Hx.
  - vm_compute. constructor.
  - exists s. split; [exact Hs | exact Hk].
Defined.

Lemma run_completion_status_witness :
  (main Demo.lib Demo.world [lit "crawl_thairath.py"; lit "--limit"; lit "5"] tt [] =
     (Ok tt, tt, [EvPrint MsgSitemapRequired]) ∧
   exit_status (main Demo.lib Demo.world
                  [lit "crawl_thairath.py"; lit "--limit"; lit "5"] tt []) = Some 0%Z) ∧
  (∃ t', main Demo.lib Demo.world Demo.argv tt [] = (Ok tt, tt, t') ∧
         exit_status (main Demo.lib Demo.world Demo.argv tt []) = Some 0%Z).
Proof.
  destruct (run_completion_status Demo.lib Demo.world) as (Hmissing & _ & Hrun).
  split.
  - apply (Hmissing [lit "crawl_thairath.py"; lit "--limit"; lit "5"] []).
    left. vm_compute. reflexivity.
  - apply (Hrun Demo.argv [] (ArgStr Demo.A_url) 1825%Z 0%Z
             [lit "economics"; lit "investment"; lit "tech_innovation"; lit "politic"]
             {| wall := 63642320000000000; tzinfo := None |}
             (lit "data/thairath_dataset.csv")).
    + vm_compute. reflexivity.
    + discriminate.
    + vm_compute. reflexivity.
    + vm_compute. reflexivity.
    + vm_compute. reflexivity.
    + vm_compute. reflexivity.
    + vm_compute. reflexivity.
    + reflexivity.
Defined.

(** * Further properties of the script's functions *)

(** ** Strings *)

Lemma lstrip_head (s : str) (c : N) :
  head (lstrip s) = Some c → isspace c = false.
Proof.
  induction s as [|x s IH]; simpl; [done|].
  destruct (isspace x) eqn:Hx; [exact IH|]. by intros [= <-].
Qed.

Lemma lstrip_id (s : str) :
  (∀ c, head s = Some c → isspace c = false) → lstrip s = s.
Proof.
  destruct s as [|x s]; simpl; [done|]. intros H. by rewrite (H x eq_refl).
Qed.

Lemma lstrip_last (s : str) (c : N) :
  last (lstrip s) = Some c → last s = Some c.
Proof.
  destruct (lstrip_suffix s) as [k Hk]. intros H.
  rewrite Hk. apply last_app_Some. by left.
Qed.

Lemma strip_trimmed (s : str) : trimmed (strip s).
Proof.
  unfold strip, rstrip. split; intros c.
  - rewrite head_reverse. intros H. apply lstrip_last in H.
    rewrite last_reverse in H. by apply lstrip_head in H.
  - rewrite last_reverse. apply lstrip_head.
Qed.

Lemma strip_of_trimmed (s : str) : trimmed s → strip s = s.
Proof.
  intros [Hh Hl]. unfold strip, rstrip. rewrite (lstrip_id s Hh).
  rewrite lstrip_id; [apply reverse_involutive|].
  intros c. rewrite head_reverse. apply Hl.
Qed.

Lemma replace_from_single_cons (z c : N) (new s : str) :
  replace_from [z] new (c :: s) 0 =
    if z =? c then new ++ replace_from [z] new s 0
    else c :: replace_from [z] new s 0.
Proof.
  cbn [replace_from startswith].
  replace (startswith s []) with true by (by destruct s).
  destruct (z =? c); reflexivity.
Qed.

(** Replacing a one-character pattern works piece by piece. *)
Lemma replace_single_app (z : N) (new a b : str) :
  replace (a ++ b) [z] new = replace a [z] new ++ replace b [z] new.
Proof.
  unfold replace. induction a as [|c a IH]; [done|].
  rewrite <- app_comm_cons, !replace_from_single_cons, IH.
  destruct (z =? c); [by rewrite app_assoc | done].
Qed.

Lemma replace_single_absent (z : N) (new s : str) :
  z ∉ s → replace s [z] new = s.
Proof.
  unfold replace. induction s as [|c s IH]; intros Hz; [done|].
  rewrite replace_from_single_cons.
  destruct (N.eqb_spec z c) as [->|Hne]; [exfalso; apply Hz; left|].
  f_equal. apply IH. intros H. apply Hz. by right.
Qed.

(** ** csv_escape and normalize_date *)

(** X1: the result of [csv_escape] holds no newline and neither starts nor
    ends with whitespace; for [None] it is the empty string. *)
Theorem csv_escape_single_trimmed_line (val : option str) :
  (10 ∉ csv_escape val) ∧ trimmed (csv_escape val) ∧ csv_escape None = [].
Proof.
  split; [apply csv_escape_no_newline|]. split; [|done].
  destruct val as [v|]; simpl; [apply strip_trimmed | by split].
Qed.

(** X2: escaping twice is escaping once. *)
Theorem csv_escape_idempotent (val : option str) :
  csv_escape (Some (csv_escape val)) = csv_escape val.
Proof.
  assert (∀ x, 10 ∉ x → trimmed x → csv_escape (Some x) = x) as H.
  { intros x Hnl Htr. unfold csv_escape, NL.
    rewrite replace_single_absent by done. by apply strip_of_trimmed. }
  apply H; [apply csv_escape_no_newline|].
  destruct val as [v|]; simpl; [apply strip_trimmed | by split].
Qed.

(** X3: [normalize_date] reads a [Z] anywhere in the string as [+00:00]:
    the two spellings of a date give the same result. *)
Theorem normalize_date_Z_is_utc (lib : PyLib) (a b : str) :
  normalize_date lib (Some (a ++ lit "Z" ++ b)) =
  normalize_date lib (Some (a ++ lit "+00:00" ++ b)).
Proof.
  assert (∀ s, s ≠ [] →
            normalize_date lib (Some s) =
              match fromisoformat lib (replace s (lit "Z") (lit "+00:00")) with
              | Some dt => Some (isoformat lib dt)
              | None => None
              end) as Hne.
  { intros [|c s] Hs; [done | reflexivity]. }
  rewrite !Hne by (by destruct a).
  change (lit "Z") with [90].
  rewrite !(replace_single_app 90). reflexivity.
Qed.

(** ** The requested sections *)

Lemma split_from_no_sep (sep : N) (s cur : str) :
  sep ∉ cur → Forall (λ p, sep ∉ p) (split_from sep s cur).
Proof.
  revert cur. induction s as [|c s IH]; intros cur Hcur; simpl.
  - constructor; [|constructor]. by rewrite elem_of_reverse.
  - destruct (N.eqb_spec c sep) as [->|Hne].
    + constructor; [by rewrite elem_of_reverse|]. apply IH. by intros H; inversion H.
    + apply IH. intros H. apply elem_of_cons in H as [H|H]; [by subst | done].
Qed.

(** X4: a [--sections] string always yields a list, and every name in it is
    non-empty, has no whitespace at either end and holds no comma: blank
    pieces between commas are dropped. *)
Theorem requested_sections_clean (sections_str : str) :
  ∃ sections,
    requested_sections (ArgStr sections_str) = inr sections ∧
    Forall (λ x, x ≠ [] ∧ trimmed x ∧ 44 ∉ x) sections.
Proof.
  eexists. split; [reflexivity|].
  apply Forall_forall. intros x Hx.
  apply list_elem_of_filter in Hx as [Htr Hx].
  apply list_elem_of_fmap in Hx as (piece & -> & Hpiece).
  split; [by destruct (strip piece)|]. split; [apply strip_trimmed|].
  intros H. apply strip_elem in H.
  pose proof (split_from_no_sep 44 sections_str []) as Hsplit.
  rewrite Forall_forall in Hsplit. eapply Hsplit; [|exact Hpiece|exact H].
  by intros H'; inversion H'.
Qed.

(** ** The extracted fields *)

Lemma paragraphs_of_long (container : node) :
  Forall (λ p, (2 < length p)%nat ∧ trimmed p) (paragraphs_of container).
Proof.
  unfold paragraphs_of. apply Forall_forall. intros p Hp.
  apply list_elem_of_omap in Hp as (n & _ & Hn).
  destruct (2 <? length (strip (get_text n)))%nat eqn:Hlen; [|done].
  injection Hn as <-. split; [by apply Nat.ltb_lt | apply strip_trimmed].
Qed.

Lemma join_nonempty (sep p : str) (ps : list str) :
  p ≠ [] → join sep (p :: ps) ≠ [].
Proof. intros Hp. destruct ps; simpl; [done|]. by destruct p. Qed.

Lemma content_loop_first (soup : node) (sels : list selector) :
  (content_loop soup sels = [] ∧
   ∀ sel c, sel ∈ sels → select_one soup sel = Some c → paragraphs_of c = []) ∨
  (∃ before sel after c,
     sels = before ++ sel :: after ∧
     select_one soup sel = Some c ∧
     paragraphs_of c ≠ [] ∧
     content_loop soup sels = join NL (paragraphs_of c) ∧
     ∀ sel' c', sel' ∈ before → select_one soup sel' = Some c' →
                paragraphs_of c' = []).
Proof.
  induction sels as [|sel sels IH]; simpl.
  { left. split; [done|]. intros sel c H. inversion H. }
  destruct (select_one soup sel) as [c|] eqn:Hsel.
  - destruct (paragraphs_of c) as [|p ps] eqn:Hps.
    + destruct IH as [[Hnil Hnone] | (before & sel' & after & c' & -> & H1 & H2 & H3 & H4)].
      * left. split; [done|]. intros sel0 c0 Hin.
        apply elem_of_cons in Hin as [->|Hin]; [|by apply Hnone].
        rewrite Hsel. by intros [= <-].
      * right. exists (sel :: before), sel', after, c'.
        split; [done|]. split; [done|]. split; [done|]. split; [done|].
        intros sel0 c0 Hin.
        apply elem_of_cons in Hin as [->|Hin]; [|by apply H4].
        rewrite Hsel. by intros [= <-].
    + right. exists [], sel, sels, c. rewrite Hps.
      split; [done|]. split; [done|]. split; [done|]. split; [done|].
      intros sel0 c0 Hin. inversion Hin.
  - destruct IH as [[Hnil Hnone] | (before & sel' & after & c' & -> & H1 & H2 & H3 & H4)].
    + left. split; [done|]. intros sel0 c0 Hin.
      apply elem_of_cons in Hin as [->|Hin]; [|by apply Hnone].
      by rewrite Hsel.
    + right. exists (sel :: before), sel', after, c'.
      split; [done|]. split; [done|]. split; [done|]. split; [done|].
      intros sel0 c0 Hin.
      apply elem_of_cons in Hin as [->|Hin]; [|by apply H4].
      by rewrite Hsel.
Qed.

(** X5: the content of an article is empty exactly when no candidate
    container has a paragraph longer than two characters; otherwise it is
    the paragraphs of the first candidate that has one, joined by newlines,
    each of them trimmed and longer than two characters. A container whose
    paragraphs are all too short is passed over for the next selector. *)
Theorem content_from_first_qualifying_container (lib : PyLib) (html u : str) :
  let soup := BeautifulSoup lib html in
  let content := meta_content (extract_article lib html u) in
  (content = [] ∧
   ∀ sel c, sel ∈ candidates → select_one soup sel = Some c → paragraphs_of c = []) ∨
  (∃ before sel after c,
     candidates = before ++ sel :: after ∧
     select_one soup sel = Some c ∧
     content = join NL (paragraphs_of c) ∧
     content ≠ [] ∧
     Forall (λ p, (2 < length p)%nat ∧ trimmed p) (paragraphs_of c) ∧
     ∀ sel' c', sel' ∈ before → select_one soup sel' = Some c' →
                paragraphs_of c' = []).
Proof.
  intros soup content. subst content. cbn [extract_article meta_content]. fold soup.
  destruct (content_loop_first soup candidates)
    as [[Hnil Hnone] | (before & sel & after & c & Hc & Hsel & Hps & Hjoin & Hbefore)].
  - by left.
  - right. exists before, sel, after, c.
    split; [done|]. split; [done|]. split; [done|]. split.
    + rewrite Hjoin. pose proof (paragraphs_of_long c) as Hlong.
      destruct (paragraphs_of c) as [|p ps]; [done|].
      apply join_nonempty. apply Forall_cons in Hlong as [[Hlen _] _].
      destruct p; [simpl in Hlen; lia | done].
    + split; [apply paragraphs_of_long | done].
Qed.

(** X6: the summary never starts or ends with whitespace, and the
    published time is either empty or the ISO text of a date that
    [fromisoformat] accepted. *)
Theorem summary_trimmed_and_published_iso (lib : PyLib) (html u : str) :
  let meta := extract_article lib html u in
  trimmed (meta_summary meta) ∧
  (meta_published_iso meta = [] ∨
   ∃ raw dt, fromisoformat lib (replace raw (lit "Z") (lit "+00:00")) = Some dt ∧
             meta_published_iso meta = isoformat lib dt).
Proof.
  intros meta. subst meta. unfold extract_article. cbn [meta_summary meta_published_iso].
  split.
  - match goal with |- trimmed (match ?d with _ => _ end) => destruct d end;
      [apply strip_trimmed | by split].
  - match goal with |- context [normalize_date lib ?d] => generalize d end.
    intros [[|c raw]|]; simpl; [by left| |by left].
    destruct (fromisoformat lib _) as [dt|] eqn:Hdt; [|by left].
    destruct (isoformat lib dt) eqn:Hiso; [by left|].
    right. exists (c :: raw), dt. by rewrite Hiso.
Qed.

(** ** Sitemap resolution, in general *)

Section Keeps.
Context {S : Type} (I : S → trace → Prop).

Lemma keeps_bind {A B} (m : M S A) (k : A → M S B) :
  keeps I m → (∀ a, keeps I (k a)) → keeps I (m ≫= k).
Proof.
  intros Hm Hk s t Hs. run_monad.
  destruct (Hm s t Hs) as (r & s1 & t1 & -> & Hr & Hs1).
  destruct r as [a|e|]; [|by exists (Raise e), s1, t1|done].
  apply Hk, Hs1.
Qed.

Lemma keeps_for_each {A} (xs : list A) (body : A → M S unit) :
  (∀ x, keeps I (body x)) → keeps I (for_each xs body).
Proof.
  intros Hbody. induction xs as [|x xs IH]; simpl.
  - intros s t Hs. by exists (Ok tt), s, t.
  - apply keeps_bind; [apply Hbody | intros _; apply IH].
Qed.

Lemma keeps_returned {A} (r : exn + A) : keeps I (returned r).
Proof.
  intros s t Hs. destruct r as [e|a]; run_monad; eexists _, s, t; done.
Qed.
End Keeps.

Lemma keeps_try_except {S} (J : S → trace → Prop)
    (m : M S unit) (h : exn → M S unit) :
  keeps J m →
  (∀ e s t, J s t → ∃ s' t', h e s t = (Ok tt, s', t') ∧ J s' t') →
  ∀ s t, J s t → ∃ s' t', try_except m h s t = (Ok tt, s', t') ∧ J s' t'.
Proof.
  intros Hm Hh s t Hs. unfold try_except.
  destruct (Hm s t Hs) as (r & s1 & t1 & -> & Hr & Hs1).
  destruct r as [[]|e|]; [by exists s1, t1| |done].
  by apply Hh.
Qed.

(** A guarded block that starts with a request. *)
Lemma try_fetch_then {S A} (w : World) (k : str → M S A) (h : exn → M S A)
    (u : str) (timeout : Z) (s : S) (t : trace) :
  try_except (fetch_text w u timeout ≫= k) h s t =
    match http_get w t u timeout with
    | inl e => h e s (t ++ [EvGet u timeout])
    | inr body => try_except (k body) h s (t ++ [EvGet u timeout])
    end.
Proof.
  unfold fetch_text. run_monad. by destruct (http_get w t u timeout).
Qed.

Section Resolver.
Context (lib : PyLib) (w : World) (max_sitemaps : Z).
Context (I : sitemap_state → trace → Prop).
Context (I_print : ∀ s t u e, I s t → I s (t ++ [EvPrint (MsgSitemapFail u e)])).
Context (I_urls : ∀ s t e, I s t → loc e ≠ [] → I (urls_append e s) t).
Context (I_add : ∀ s t l, I s t → l ≠ [] → l ∉ seen s →
           I (seen_add l s) t ∧
           ((Z.of_nat (size (seen (seen_add l s))) < max_sitemaps)%Z →
            I (seen_add l s) (t ++ [EvGet l 10]))).

(** A rule for [load_one]: an invariant that survives a failure message, an
    appended entry and a new element of [seen], and that holds once the
    request for [u] is made, holds when [load_one u] returns; the call
    returns at once, changing nothing, when [seen] has reached the cap. *)
Lemma load_one_invariant (fuel : nat) :
  ∀ (u : str) (s : sitemap_state) (t : trace),
    (max_sitemaps < Z.of_nat (size (seen s)) + Z.of_nat fuel)%Z →
    ((Z.of_nat (size (seen s)) < max_sitemaps)%Z → I s (t ++ [EvGet u 10])) →
    ∃ s' t',
      load_one lib w max_sitemaps fuel u s t = (Ok tt, s', t') ∧
      ((s' = s ∧ t' = t ∧ (max_sitemaps ≤ Z.of_nat (size (seen s)))%Z) ∨ I s' t') ∧
      (size (seen s) ≤ size (seen s'))%nat.
Proof.
  induction fuel as [|fuel IH]; intros u s t Hfuel Hpre.
  - simpl. run_monad.
    destruct (Z.leb_spec max_sitemaps (Z.of_nat (size (seen s)))); [|lia].
    exists s, t. split; [done|]. split; [by left | done].
  - simpl. unfold mbind at 1, M_bind at 1, bind at 1, gets at 1.
    destruct (Z.leb_spec max_sitemaps (Z.of_nat (size (seen s)))) as [Hcap|Hcap].
    { exists s, t. split; [done|]. split; [by left | done]. }
    pose (J := λ (s1 : sitemap_state) (t1 : trace),
            I s1 t1 ∧ (size (seen s) ≤ size (seen s1))%nat).
    assert (J s (t ++ [EvGet u 10])) as HJ0 by (split; [by apply Hpre | done]).
    assert (∀ e s1 t1, J s1 t1 →
              ∃ s' t', print (MsgSitemapFail u e) s1 t1 = (Ok tt, s', t') ∧ J s' t')
      as Hhandler.
    { intros e s1 t1 [HI Hsz]. unfold print. run_monad.
      exists s1, (t1 ++ [EvPrint (MsgSitemapFail u e)]).
      split; [done|]. split; [by apply I_print | done]. }
    rewrite try_fetch_then.
    assert (∀ r : result unit * sitemap_state * trace,
              (∃ s' t', r = (Ok tt, s', t') ∧ J s' t') →
              ∃ s' t', r = (Ok tt, s', t') ∧
                ((s' = s ∧ t' = t ∧ (max_sitemaps ≤ Z.of_nat (size (seen s)))%Z) ∨ I s' t') ∧
                (size (seen s) ≤ size (seen s'))%nat) as Hwrap.
    { intros r (s' & t' & -> & HI & Hsz). exists s', t'.
      split; [done|]. split; [by right | done]. }
    apply Hwrap.
    destruct (http_get w t u 10) as [e|xml_content]; [by apply Hhandler|].
    apply keeps_try_except; [|exact Hhandler|exact HJ0].
    apply keeps_bind; [apply keeps_returned|]. intros doc.
    apply keeps_bind; [|intros _].
    + apply keeps_for_each. intros sitemap s1 t1 [HI Hsz].
      destruct sitemap as [[l|]|]; unfold child_text; run_monad;
        [|by exists (Ok tt), s1, t1|by exists (Raise AttributeError), s1, t1].
      destruct (truthy l && bool_decide (l ∉ seen s1)) eqn:Hnew;
        [|by exists (Ok tt), s1, t1].
      apply andb_prop in Hnew as [Hl Hnew]. apply bool_decide_eq_true in Hnew.
      assert (l ≠ []) as Hne by (by destruct l).
      destruct (I_add s1 t1 l HI Hne Hnew) as [Hstay Hget].
      pose proof (size_seen_add l s1 Hnew) as Hsize.
      destruct (IH l (seen_add l s1) t1) as (s2 & t2 & Hrun & Hpost & Hmono);
        [lia | exact Hget |].
      exists (Ok tt), s2, t2. rewrite Hrun. split; [done|]. split; [done|].
      split; [|lia]. by destruct Hpost as [(-> & -> & _) | HI2].
    + apply keeps_for_each. intros url_tag s1 t1 [HI Hsz].
      destruct (ut_loc url_tag) as [[l|]|]; unfold child_text; run_monad;
        [|by exists (Ok tt), s1, t1|by exists (Raise AttributeError), s1, t1].
      destruct (truthy l) eqn:Hl; [|by exists (Ok tt), s1, t1].
      eexists (Ok tt), _, t1. split; [reflexivity|]. split; [done|].
      split; [|exact Hsz]. apply I_urls; [done|]. by destruct l.
Qed.
End Resolver.

Lemma requested_app (t1 t2 : trace) : requested (t1 ++ t2) = requested t1 ++ requested t2.
Proof. unfold requested. apply omap_app. Qed.

(** The rule of [load_one], for a whole resolution. *)
Lemma fetch_sitemap_urls_invariant (lib : PyLib) (w : World) (max_sitemaps : Z)
    (I : sitemap_state → trace → Prop) (S : Type) (root_url : str) (s : S) (t : trace) :
  (∀ s t u e, I s t → I s (t ++ [EvPrint (MsgSitemapFail u e)])) →
  (∀ s t e, I s t → loc e ≠ [] → I (urls_append e s) t) →
  (∀ s t l, I s t → l ≠ [] → l ∉ seen s →
     I (seen_add l s) t ∧
     ((Z.of_nat (size (seen (seen_add l s))) < max_sitemaps)%Z →
      I (seen_add l s) (t ++ [EvGet l 10]))) →
  ((0 < max_sitemaps)%Z → I {| seen := ∅; urls := [] |} (t ++ [EvGet root_url 10])) →
  ∃ st' t',
    fetch_sitemap_urls lib w root_url max_sitemaps s t = (Ok (urls st'), s, t') ∧
    ((st' = {| seen := ∅; urls := [] |} ∧ t' = t ∧ (max_sitemaps ≤ 0)%Z) ∨ I st' t').
Proof.
  intros Hprint Hurls Hadd Hroot.
  destruct (load_one_invariant lib w max_sitemaps I Hprint Hurls Hadd
              (Datatypes.S (Z.to_nat max_sitemaps)) root_url
              {| seen := ∅; urls := [] |} t) as (st' & t' & Hrun & Hpost & _).
  - cbn [seen]. rewrite size_empty. lia.
  - cbn [seen]. rewrite size_empty. exact Hroot.
  - exists st', t'. split.
    + unfold fetch_sitemap_urls, with_locals. run_monad. by rewrite Hrun.
    + destruct Hpost as [(-> & -> & Hcap) | HI]; [left | by right].
      cbn [seen] in Hcap. rewrite size_empty in Hcap. done.
Qed.

(** The resolver's run: its events, its requests and its entries. *)
Lemma resolver_run (lib : PyLib) (w : World) (S : Type)
    (root_url : str) (max_sitemaps : Z) (s : S) (t : trace) :
  ∃ entries new,
    fetch_sitemap_urls lib w root_url max_sitemaps s t = (Ok entries, s, t ++ new) ∧
    Forall sitemap_event new ∧
    (length (requested new) ≤ Z.to_nat max_sitemaps)%nat ∧
    Forall (λ e, loc e ≠ []) entries.
Proof.
  pose (I := λ (st : sitemap_state) (t' : trace),
          (0 < max_sitemaps)%Z ∧
          Forall (λ e, loc e ≠ []) (urls st) ∧
          ∃ new, t' = t ++ new ∧ Forall sitemap_event new ∧
                 (length (requested new)
                  ≤ 1 + Nat.min (Z.to_nat max_sitemaps - 1) (size (seen st)))%nat).
  assert (∀ u, sitemap_event (EvGet u 10)) as Hget by (intros u; left; by exists u).
  destruct (fetch_sitemap_urls_invariant lib w max_sitemaps I S root_url s t)
    as (st' & t' & Hrun & Hpost).
  - intros st t1 u e (Hmax & Hloc & new & -> & Hev & Hcnt).
    split; [done|]. split; [done|].
    exists (new ++ [EvPrint (MsgSitemapFail u e)]). rewrite app_assoc. split; [done|].
    rewrite requested_app. simpl. rewrite app_nil_r. split; [|done].
    apply Forall_app. split; [done|]. constructor; [|constructor].
    right. by exists u, e.
  - intros st t1 e (Hmax & Hloc & Hnew) He.
    split; [done|]. split; [|exact Hnew].
    simpl. apply Forall_app. split; [done|]. by constructor.
  - intros st t1 l (Hmax & Hloc & new & -> & Hev & Hcnt) Hl Hfresh.
    pose proof (size_seen_add l st Hfresh) as Hsize. split.
    + split; [done|]. split; [done|]. exists new. split; [done|]. split; [done|]. lia.
    + intros Hcap. split; [done|]. split; [done|].
      exists (new ++ [EvGet l 10]). rewrite app_assoc. split; [done|].
      split; [apply Forall_app; split; [done|]; by constructor|].
      rewrite requested_app, length_app.
      change (length (requested [EvGet l 10])) with 1%nat.
      rewrite Hsize in *. lia.
  - intros Hmax. split; [done|]. split; [constructor|].
    exists [EvGet root_url 10]. split; [done|]. split; [by constructor|]. simpl. lia.
  - destruct Hpost as [(-> & -> & _) | (Hmax & Hloc & new & -> & Hev & Hcnt)].
    + exists [], []. rewrite app_nil_r. split; [exact Hrun|].
      split; [constructor|]. split; [simpl; lia | constructor].
    + exists (urls st'), new. split; [exact Hrun|]. split; [done|]. split; [lia | done].
Qed.

(** X7: sitemap resolution never raises and leaves its caller's variables
    alone, whatever the network and the parser do; it only makes requests
    with the 10-second timeout and prints failure messages; and no entry it
    returns has an empty location. *)
Theorem resolver_absorbs_failures (lib : PyLib) (w : World) (S : Type)
    (root_url : str) (max_sitemaps : Z) (s : S) (t : trace) :
  ∃ entries new,
    fetch_sitemap_urls lib w root_url max_sitemaps s t = (Ok entries, s, t ++ new) ∧
    Forall sitemap_event new ∧
    Forall (λ e, loc e ≠ []) entries.
Proof.
  destruct (resolver_run lib w S root_url max_sitemaps s t)
    as (entries & new & Hrun & Hev & _ & Hloc).
  by exists entries, new.
Qed.

(** X8: a resolution makes at most [max_sitemaps] requests, and none when
    [max_sitemaps] is zero or negative. *)
Theorem resolver_requests_bounded (lib : PyLib) (w : World) (S : Type)
    (root_url : str) (max_sitemaps : Z) (s : S) (t : trace) :
  let t' := (fetch_sitemap_urls lib w root_url max_sitemaps s t).2 in
  (length (requested (drop (length t) t')) ≤ Z.to_nat max_sitemaps)%nat.
Proof.
  destruct (resolver_run lib w S root_url max_sitemaps s t)
    as (entries & new & -> & _ & Hcnt & _).
  cbn. by rewrite drop_app_length.
Qed.

(** X9: every sitemap URL is requested at most once, except the root,
    which is requested first and may be requested once more: the requests of
    a resolution are the root followed by pairwise distinct URLs. *)
Theorem resolver_requests_distinct_after_root (lib : PyLib) (w : World) (S : Type)
    (root_url : str) (max_sitemaps : Z) (s : S) (t : trace) :
  ∃ entries new,
    fetch_sitemap_urls lib w root_url max_sitemaps s t = (Ok entries, s, t ++ new) ∧
    (requested new = [] ∨
     ∃ children, requested new = root_url :: children ∧ NoDup children).
Proof.
  pose (I := λ (st : sitemap_state) (t' : trace),
          ∃ new children,
            t' = t ++ new ∧ requested new = root_url :: children ∧
            NoDup children ∧ ∀ x, x ∈ children → x ∈ seen st).
  destruct (fetch_sitemap_urls_invariant lib w max_sitemaps I S root_url s t)
    as (st' & t' & Hrun & Hpost).
  - intros st t1 u e (new & children & -> & Hreq & Hnd & Hseen).
    exists (new ++ [EvPrint (MsgSitemapFail u e)]), children.
    rewrite app_assoc, requested_app. simpl. by rewrite app_nil_r.
  - intros st t1 e HI _. exact HI.
  - intros st t1 l (new & children & -> & Hreq & Hnd & Hseen) _ Hfresh. split.
    + exists new, children. split; [done|]. split; [done|]. split; [done|].
      intros x Hx. simpl. apply elem_of_union. right. by apply Hseen.
    + intros _. exists (new ++ [EvGet l 10]), (children ++ [l]).
      rewrite app_assoc, requested_app, Hreq. simpl.
      split; [done|]. split; [done|]. split.
      * apply NoDup_app. split; [done|]. split; [|apply NoDup_singleton].
        intros x Hx Hx'. apply list_elem_of_singleton in Hx'. subst x.
        by apply Hfresh, Hseen.
      * intros x Hx. simpl. apply elem_of_union.
        apply elem_of_app in Hx as [Hx|Hx]; [right; by apply Hseen|].
        left. apply list_elem_of_singleton in Hx. by apply elem_of_singleton.
  - intros _. exists [EvGet root_url 10], []. simpl.
    split; [done|]. split; [done|]. split; [constructor|]. intros x Hx. inversion Hx.
  - destruct Hpost as [(-> & -> & _) | (new & children & -> & Hreq & Hnd & _)].
    + exists [], []. rewrite app_nil_r. split; [exact Hrun | by left].
    + exists (urls st'), new. split; [exact Hrun|]. right. by exists children.
Qed.

(** ** Sitemap resolution of one document *)

(** The URL loop of [load_one] on a list of [url] elements. *)
Lemma url_loop_run (lib : PyLib) (tags : list UrlTag) (s : sitemap_state) (t : trace) :
  for_each tags (λ url_tag,
    loc ← child_text (ut_loc url_tag);
    let lastmod := parse_lastmod lib (ut_lastmod url_tag) in
    match loc with
    | Some l =>
        if truthy l
        then modify (urls_append {| loc := l; lastmod := lastmod |})
        else ret tt
    | None => ret tt
    end) s t =
  (if (read_urls lib tags).2 then Ok tt else Raise AttributeError,
   {| seen := seen s; urls := urls s ++ (read_urls lib tags).1 |},
   t).
Proof.
  match goal with |- for_each _ ?b _ _ = _ => set (body := b) end.
  assert (∀ tag s1,
            body tag s1 t =
              match ut_loc tag with
              | None => (Raise AttributeError, s1, t)
              | Some None | Some (Some []) => (Ok tt, s1, t)
              | Some (Some l) =>
                  (Ok tt,
                   urls_append
                     {| loc := l; lastmod := parse_lastmod lib (ut_lastmod tag) |} s1,
                   t)
              end) as Hstep.
  { intros tag s1. unfold body.
    destruct (ut_loc tag) as [[[|c l]|]|]; unfold child_text; run_monad; reflexivity. }
  revert s. induction tags as [|tag tags IH]; intros s.
  - cbn. destruct s. cbn. by rewrite app_nil_r.
  - cbn [for_each read_urls]. unfold mbind at 1, M_bind at 1, bind at 1.
    rewrite Hstep.
    destruct (ut_loc tag) as [[[|c l]|]|].
    + apply IH.
    + rewrite IH. cbn. by rewrite <- app_assoc.
    + apply IH.
    + destruct s. cbn. by rewrite app_nil_r.
Qed.

(** The first step of a resolution whose cap is positive. *)
Lemma fetch_sitemap_urls_root (lib : PyLib) (w : World) (S : Type)
    (root_url : str) (max_sitemaps : Z) (s : S) (t : trace) :
  (0 < max_sitemaps)%Z →
  fetch_sitemap_urls lib w root_url max_sitemaps s t =
    match
      match http_get w t root_url 10 with
      | inl e =>
          print (MsgSitemapFail root_url e)
            {| seen := ∅; urls := [] |} (t ++ [EvGet root_url 10])
      | inr xml_content =>
          try_except
            (doc ← returned (ET_fromstring lib xml_content);
             for_each (doc_sitemaps doc) (λ sitemap,
               loc ← child_text sitemap;
               sn ← gets seen;
               match loc with
               | Some l =>
                   if truthy l && bool_decide (l ∉ sn)
                   then modify (seen_add l);;
                        load_one lib w max_sitemaps (Z.to_nat max_sitemaps) l
                   else ret tt
               | None => ret tt
               end);;
             for_each (doc_urls doc) (λ url_tag,
               loc ← child_text (ut_loc url_tag);
               let lastmod := parse_lastmod lib (ut_lastmod url_tag) in
               match loc with
               | Some l =>
                   if truthy l
                   then modify (urls_append {| loc := l; lastmod := lastmod |})
                   else ret tt
               | None => ret tt
               end))
            (λ e, print (MsgSitemapFail root_url e))
            {| seen := ∅; urls := [] |} (t ++ [EvGet root_url 10])
      end
    with
    | (Ok _, st, t') => (Ok (urls st), s, t')
    | (Raise e, _, t') => (Raise e, s, t')
    | (OutOfFuel, _, t') => (OutOfFuel, s, t')
    end.
Proof.
  intros Hmax. unfold fetch_sitemap_urls, with_locals.
  unfold mbind at 1, M_bind at 1, bind at 1.
  cbn [load_one]. unfold mbind at 1, M_bind at 1, bind at 1, gets at 1.
  cbn [seen]. rewrite size_empty.
  destruct (Z.leb_spec max_sitemaps (Z.of_nat 0)); [lia|].
  rewrite try_fetch_then.
  destruct (http_get w t root_url 10) as [e|xml_content].
  - by destruct (print _ _ _) as [[[]] ?].
  - by destruct (try_except _ _ _ _) as [[[]] ?].
Qed.

(** X10: when the root request fails, or its body does not parse, the
    resolution returns no entry, having made that one request and printed
    one failure message. *)
Theorem resolver_root_failure (lib : PyLib) (w : World) (S : Type)
    (root_url : str) (max_sitemaps : Z) (s : S) (t : trace) (e : exn)
    (Hmax : (0 < max_sitemaps)%Z)
    (Hfail : http_get w t root_url 10 = inl e ∨
             ∃ body, http_get w t root_url 10 = inr body ∧
                     ET_fromstring lib body = inl e) :
  fetch_sitemap_urls lib w root_url max_sitemaps s t =
    (Ok [], s, t ++ [EvGet root_url 10; EvPrint (MsgSitemapFail root_url e)]).
Proof.
  rewrite fetch_sitemap_urls_root by done.
  destruct Hfail as [-> | (body & -> & Hparse)].
  - unfold print. run_monad. by rewrite <- app_assoc.
  - rewrite Hparse. unfold print. run_monad. by rewrite <- app_assoc.
Qed.

(** X11: a root document that is a plain URL set gives its entries in
    document order, each with the parsed last-modified time or none; an
    element whose location is empty is passed over, and an element with no
    location child ends the document there with a failure message, the
    entries read before it being kept. *)
Theorem resolver_url_set (lib : PyLib) (w : World) (S : Type)
    (root_url : str) (max_sitemaps : Z) (s : S) (t : trace)
    (body : str) (doc : SitemapDoc)
    (Hmax : (0 < max_sitemaps)%Z)
    (Hget : http_get w t root_url 10 = inr body)
    (Hparse : ET_fromstring lib body = inr doc)
    (Hleaf : doc_sitemaps doc = []) :
  fetch_sitemap_urls lib w root_url max_sitemaps s t =
    (Ok (read_urls lib (doc_urls doc)).1, s,
     t ++ EvGet root_url 10 ::
       (if (read_urls lib (doc_urls doc)).2 then []
        else [EvPrint (MsgSitemapFail root_url AttributeError)])).
Proof.
  rewrite fetch_sitemap_urls_root by done. rewrite Hget.
  unfold try_except. unfold mbind at 1, M_bind at 1, bind at 1.
  rewrite Hparse. cbn [returned]. unfold ret at 1.
  rewrite Hleaf. cbn [for_each].
  unfold mbind at 1, M_bind at 1, bind at 1. unfold ret at 1.
  rewrite url_loop_run. cbn [seen urls app].
  destruct (read_urls lib (doc_urls doc)) as [entries []]; cbn [fst snd].
  - reflexivity.
  - unfold print. run_monad. by rewrite <- ?app_assoc.
Qed.

(** ** The section rules *)

Lemma startswith_app (p r : str) : startswith (p ++ r) p = true.
Proof.
  induction p as [|c p IH]; simpl; [by destruct r|].
  by rewrite N.eqb_refl, IH.
Qed.

Lemma startswith_true (s p : str) : startswith s p = true → ∃ r, s = p ++ r.
Proof.
  revert s. induction p as [|c p IH]; intros s; [by exists s|].
  destruct s as [|x s]; simpl; [done|]. intros H.
  apply andb_prop in H as [Hc H]. apply N.eqb_eq in Hc. subst x.
  destruct (IH s H) as [r ->]. by exists r.
Qed.

Lemma str_in_iff (needle hay : str) :
  str_in needle hay = true ↔ ∃ l r, hay = l ++ needle ++ r.
Proof.
  split.
  - induction hay as [|c hay IH]; cbn [str_in]; intros H.
    + apply orb_prop in H as [H|H]; [|done].
      apply startswith_true in H as [r ->]. by exists [], r.
    + apply orb_prop in H as [H|H].
      * apply startswith_true in H as [r Hr]. exists [], r. by rewrite Hr.
      * destruct (IH H) as (l & r & ->). by exists (c :: l), r.
  - intros (l & r & ->). induction l as [|c l IH].
    + cbn [app]. destruct (needle ++ r) as [|x k] eqn:E; cbn [str_in];
        rewrite <- E, startswith_app; done.
    + cbn [app str_in]. by rewrite IH, orb_true_r.
Qed.

(** A URL that holds [p ++ q] holds [p]. *)
Lemma str_in_prefix (p q u : str) :
  str_in (p ++ q) u = true → str_in p u = true.
Proof.
  rewrite !str_in_iff. intros (l & r & ->).
  exists l, (q ++ r). by rewrite <- app_assoc.
Qed.

Lemma section_matches_rule (s p q u : str) (f : str → bool) :
  SECTION_PREFIX !! s = Some p → p ≠ [] →
  SUBFILTERS !! s = Some f → f u = str_in (p ++ q) u →
  section_matches u s = str_in (p ++ q) u.
Proof.
  intros Hp Hne Hf Hfu. unfold section_matches. rewrite Hp, Hf, Hfu.
  destruct (str_in (p ++ q) u) eqn:Hin; [|apply andb_false_r].
  rewrite (str_in_prefix p q u Hin). by destruct p.
Qed.

(** X12: with the built-in tables a section matches a URL exactly when the
    URL holds the section's sub-filter path (the prefix adds nothing), so an
    economics URL outside [thai_economics] belongs to no section; and a
    requested name that is not one of the six built-in sections never
    matches. *)
Theorem builtin_section_rules (u : str) :
  section_matches u (lit "economics")
    = str_in (lit "/money/economics/thai_economics/") u ∧
  section_matches u (lit "investment") = str_in (lit "/money/investment/") u ∧
  section_matches u (lit "tech_innovation") = str_in (lit "/money/tech_innovation/") u ∧
  section_matches u (lit "politic") = str_in (lit "/news/politic/") u ∧
  section_matches u (lit "personal_finance") = str_in (lit "/money/personal_finance/") u ∧
  section_matches u (lit "business_marketing")
    = str_in (lit "/money/business_marketing/") u ∧
  ∀ s, section_matches u s = true →
       s ∈ [ lit "economics"; lit "investment"; lit "tech_innovation";
             lit "politic"; lit "personal_finance"; lit "business_marketing" ].
Proof.
  repeat split.
  - by apply (section_matches_rule _ (lit "/money/economics") (lit "/thai_economics/") u
                (λ u, str_in (lit "/money/economics/thai_economics/") u)).
  - by apply (section_matches_rule _ (lit "/money/investment") (lit "/") u
                (λ u, str_in (lit "/money/investment/") u)).
  - by apply (section_matches_rule _ (lit "/money/tech_innovation") (lit "/") u
                (λ u, str_in (lit "/money/tech_innovation/") u)).
  - by apply (section_matches_rule _ (lit "/news/politic") (lit "/") u
                (λ u, str_in (lit "/news/politic/") u)).
  - by apply (section_matches_rule _ (lit "/money/personal_finance") (lit "/") u
                (λ u, str_in (lit "/money/personal_finance/") u)).
  - by apply (section_matches_rule _ (lit "/money/business_marketing") (lit "/") u
                (λ u, str_in (lit "/money/business_marketing/") u)).
  - intros s Hs. unfold section_matches in Hs.
    destruct (SECTION_PREFIX !! s) as [p|] eqn:Hp; [|done].
    apply elem_of_list_to_map_2 in Hp.
    apply (list_elem_of_fmap_2 fst) in Hp. exact Hp.
Qed.

(** ** The filter loop as a filter and a de-duplication *)

Lemma first_per_loc_sublist (seen_locs : gset str) (items : list SitemapEntry) :
  first_per_loc seen_locs items `sublist_of` items.
Proof.
  revert seen_locs. induction items as [|item rest IH]; intros seen_locs; simpl; [done|].
  destruct (decide _); [by apply sublist_cons | by apply sublist_skip].
Qed.

Lemma filter_loop_refines (section_set : list str) (since_date : datetime)
    (all_urls filtered : list SitemapEntry) (seen_locs : gset str) :
  (filter_loop section_set since_date all_urls filtered seen_locs).1 =
    filtered ++
    first_per_loc seen_locs (filter (eligible section_set since_date) all_urls).
Proof.
  revert filtered seen_locs.
  induction all_urls as [|item rest IH]; intros filtered seen_locs.
  - simpl. by rewrite app_nil_r.
  - rewrite filter_loop_cons. unfold kept.
    destruct (decide (eligible section_set since_date item)) as [[Hsec Hold]|Hno].
    + rewrite filter_cons_True by done. simpl. rewrite Hsec, Hold. simpl.
      destruct (decide (loc item ∈ seen_locs)) as [Hin|Hout].
      * rewrite bool_decide_eq_false_2 by (by intros H; apply H). simpl. apply IH.
      * rewrite bool_decide_eq_true_2 by done. simpl.
        rewrite IH. by rewrite <- app_assoc.
    + rewrite filter_cons_False by done.
      replace (_ && _ && _) with false; [apply IH|].
      unfold eligible in Hno.
      destruct (sec_truthy _), (too_old _ _); simpl; try done;
        [by rewrite andb_false_r | exfalso; by apply Hno].
Qed.

(** X13: the candidates are the resolver's entries that have a requested
    section and are not too old, reduced to the first such entry of each
    location; they keep the order of the resolver's output. *)
Theorem candidates_are_first_eligible (section_set : list str) (since_date : datetime)
    (all_urls : list SitemapEntry) :
  let filtered := (filter_loop section_set since_date all_urls [] ∅).1 in
  filtered = first_per_loc ∅ (filter (eligible section_set since_date) all_urls) ∧
  filtered `sublist_of` all_urls.
Proof.
  intros filtered. subst filtered. rewrite filter_loop_refines. cbn [app].
  split; [done|]. etrans; [apply first_per_loc_sublist | apply sublist_filter].
Qed.

(** ** The results dictionary *)

Lemma dict_get_set_eq {V} (d : list (str * V)) (k : str) (v : V) :
  dict_get (dict_set d k v) k = Some v.
Proof.
  induction d as [|[k' v'] d IH]; simpl.
  - by destruct (decide (k = k)).
  - destruct (decide (k' = k)) as [->|Hne]; simpl.
    + by destruct (decide (k = k)).
    + by destruct (decide (k' = k)).
Qed.

Lemma dict_get_set_ne {V} (d : list (str * V)) (k k0 : str) (v : V) :
  k ≠ k0 → dict_get (dict_set d k v) k0 = dict_get d k0.
Proof.
  intros Hne. induction d as [|[k' v'] d IH]; simpl.
  - by destruct (decide (k = k0)).
  - destruct (decide (k' = k)) as [->|Hne']; simpl.
    + by destruct (decide (k = k0)).
    + destruct (decide (k' = k0)); [done | exact IH].
Qed.

Lemma dict_set_NoDup {V} (d : list (str * V)) (k : str) (v : V) :
  NoDup d.*1 → NoDup (dict_set d k v).*1.
Proof.
  induction d as [|[k' v'] d IH]; simpl; intros Hnd.
  - apply NoDup_singleton.
  - apply NoDup_cons in Hnd as [Hk' Hnd].
    destruct (decide (k' = k)) as [->|Hne]; simpl.
    + by apply NoDup_cons.
    + apply NoDup_cons. split; [|by apply IH].
      rewrite dict_set_keys. intros [->|H]; done.
Qed.

(** X14: the results dictionary starts with exactly one key for every
    requested section, however often the section was named, and every list
    in it is empty. *)
Theorem init_results_one_empty_list_per_section (sections : list str) :
  NoDup (init_results sections).*1 ∧
  ∀ s, dict_get (init_results sections) s
       = if decide (s ∈ sections) then Some [] else None.
Proof.
  unfold init_results.
  assert (∀ d : list (str * list ArticleRecord),
            NoDup d.*1 →
            NoDup (foldl (λ d s, dict_set d s []) d sections).*1 ∧
            ∀ s, dict_get (foldl (λ d s, dict_set d s []) d sections) s
                 = if decide (s ∈ sections) then Some [] else dict_get d s) as H.
  { induction sections as [|x l IH]; intros d Hnd; simpl.
    - split; [done|]. intros s. destruct (decide (s ∈ [])) as [Hin|]; [inversion Hin | done].
    - destruct (IH (dict_set d x []) (dict_set_NoDup d x [] Hnd)) as [Hnd' Hget].
      split; [done|]. intros s. rewrite Hget.
      destruct (decide (s ∈ l)) as [Hin|Hout].
      + rewrite decide_True; [done | by right].
      + destruct (decide (x = s)) as [->|Hne].
        * rewrite dict_get_set_eq, decide_True; [done | left].
        * rewrite dict_get_set_ne by done.
          rewrite decide_False; [done|].
          intros H. apply elem_of_cons in H as [->|H]; done. }
  destruct (H [] (NoDup_nil_2)) as [Hnd Hget]. split; [done|].
  intros s. rewrite Hget. by destruct (decide (s ∈ sections)).
Qed.

(** ** parse_args *)

Lemma parse_args_from_cons (arg : str) (rest : list str) (args : gmap str argval) :
  parse_args_from (arg :: rest) args =
    if startswith arg (lit "--")
    then parse_args_from rest (<[drop 2 arg := flag_value rest]> args)
    else parse_args_from rest args.
Proof. reflexivity. Qed.

(** Arguments after the last [--k] leave the value of [k] alone. *)
Lemma parse_args_from_other (k : str) (rest : list str) (args : gmap str argval) :
  (∀ x, x ∈ rest → startswith x (lit "--") = true → drop 2 x ≠ k) →
  parse_args_from rest args !! k = args !! k.
Proof.
  revert args. induction rest as [|x rest IH]; intros args Hother; [done|].
  rewrite parse_args_from_cons.
  assert (∀ y, y ∈ rest → startswith y (lit "--") = true → drop 2 y ≠ k) as Hrest.
  { intros y Hy. apply Hother. by right. }
  destruct (startswith x (lit "--")) eqn:Hx; [|by apply IH].
  rewrite IH by done. apply lookup_insert_ne. apply Hother; [left | done].
Qed.

Lemma parse_args_from_app (pre rest : list str) (args : gmap str argval) :
  rest ≠ [] →
  ∃ args', parse_args_from (pre ++ rest) args = parse_args_from rest args'.
Proof.
  intros Hrest. revert args. induction pre as [|x pre IH]; intros args; [by exists args|].
  rewrite <- app_comm_cons, parse_args_from_cons.
  destruct (startswith x (lit "--")); apply IH.
Qed.

Lemma parse_args_from_lookup (argv : list str) (args : gmap str argval) (k : str) (v : argval) :
  parse_args_from argv args !! k = Some v →
  args !! k = Some v ∨
  ∃ pre arg rest,
    argv = pre ++ arg :: rest ∧ startswith arg (lit "--") = true ∧
    k = drop 2 arg ∧ v = flag_value rest.
Proof.
  revert args. induction argv as [|x argv IH]; intros args; [by left|].
  rewrite parse_args_from_cons.
  destruct (startswith x (lit "--")) eqn:Hx; intros H; apply IH in H.
  - destruct H as [H | (pre & arg & rest & -> & ? & ? & ?)].
    + apply lookup_insert_Some in H as [[<- <-] | [_ H]]; [|by left].
      right. by exists [], x, argv.
    + right. by exists (x :: pre), arg, rest.
  - destruct H as [H | (pre & arg & rest & -> & ? & ? & ?)]; [by left|].
    right. by exists (x :: pre), arg, rest.
Qed.

(** X15: every key of [parse_args] is an argument that began with [--],
    without those two characters, and its value is read off the argument
    that follows it: that argument itself unless it begins with [--] or is
    missing, in which case the value is [True]. So a value never begins
    with [--]. *)
Theorem parse_args_keys_and_values (argv : list str) (k : str) (v : argval) :
  parse_args argv !! k = Some v →
  (∃ pre arg rest,
     argv = pre ++ arg :: rest ∧ startswith arg (lit "--") = true ∧
     k = drop 2 arg ∧ v = flag_value rest) ∧
  (∀ x, v = ArgStr x → x ∈ argv ∧ startswith x (lit "--") = false).
Proof.
  intros H. unfold parse_args in H.
  apply parse_args_from_lookup in H as [H | (pre & arg & rest & -> & Harg & -> & ->)];
    [by rewrite lookup_empty in H|].
  split; [by exists pre, arg, rest|].
  intros x Hx. destruct rest as [|next rest]; [done|]. simpl in Hx.
  destruct (startswith next (lit "--")) eqn:Hnext; simpl in Hx; [done|].
  injection Hx as ->. split; [|done].
  apply elem_of_app. right. right. left.
Qed.

(** X16: when a flag is given several times the last one counts. *)
Theorem parse_args_last_wins (pre rest : list str) (arg : str) :
  startswith arg (lit "--") = true →
  (∀ x, x ∈ rest → startswith x (lit "--") = true → drop 2 x ≠ drop 2 arg) →
  parse_args (pre ++ arg :: rest) !! drop 2 arg = Some (flag_value rest).
Proof.
  intros Harg Hlast. unfold parse_args.
  destruct (parse_args_from_app pre (arg :: rest) ∅) as [args' ->]; [done|].
  rewrite parse_args_from_cons, Harg.
  rewrite parse_args_from_other by done. apply lookup_insert_eq.
Qed.

(** ** The output files *)

Lemma replace_absent (s old new : str) :
  old ≠ [] → str_in old s = false → replace s old new = s.
Proof.
  intros Hold. destruct old as [|o old]; [done|]. unfold replace.
  induction s as [|c s IH]; [done|]. cbn [str_in replace_from]. intros H.
  apply orb_false_elim in H as [Hhere Hlater]. rewrite Hhere. f_equal. by apply IH.
Qed.

(** X17: with the default base path the file of a section is
    [data/thairath_dataset_<section>.csv]; with a base path that holds no
    [.csv] every section gets the base path itself, so all sections share
    one file; a bare [--out-csv] raises [AttributeError]. *)
Theorem csv_path_of_a_section (sec : str) :
  csv_path_for (ArgStr (lit "data/thairath_dataset.csv")) sec
    = inr (lit "data/thairath_dataset_" ++ sec ++ lit ".csv") ∧
  (∀ base, str_in (lit ".csv") base = false → csv_path_for (ArgStr base) sec = inr base) ∧
  csv_path_for ArgTrue sec = inl AttributeError.
Proof.
  split; [|split; [|done]].
  - unfold csv_path_for. f_equal. cbn. by rewrite app_nil_r.
  - intros base Hbase. unfold csv_path_for. f_equal. by apply replace_absent.
Qed.

(** X18: when every file can be written, the save loop writes one file for
    each section that has records, in the order of the dictionary, with the
    section's list as its rows, and none for a section without records. *)
Theorem save_outputs_one_file_per_nonempty_section {S} (w : World) (base : str)
    (res : list (str * list ArticleRecord)) (s : S) (t : trace)
    (Hwrite : ∀ t' p, write_file w t' p = None) :
  save_outputs w (ArgStr base) res s t = (Ok tt, s, t ++ csv_writes base res).
Proof.
  unfold save_outputs. revert t.
  induction res as [|[sec items] res IH]; intros t.
  - cbn. by rewrite app_nil_r.
  - cbn [for_each csv_writes omap]. unfold mbind at 1, M_bind at 1, bind at 1.
    destruct items as [|first items].
    + unfold ret at 1. apply IH.
    + cbn [csv_path_for returned]. run_monad. rewrite Hwrite.
      rewrite IH. by rewrite <- app_assoc.
Qed.

(** ** The records of a run *)

Lemma which_section_Some_matches (u : str) (sections_set : list str) (s : str) :
  which_section u sections_set = Some s → section_matches u s = true.
Proof.
  induction sections_set as [|x rest IH]; simpl; [done|].
  destruct (section_matches u x) eqn:Hx; [by intros [= <-] | exact IH].
Qed.

Lemma record_id_nonempty {S} (lib : PyLib) (w : World) (l : str) (s : S) (t : trace) :
  ∃ i, record_id lib w l s t = (Ok i, s, t) ∧ i ≠ [].
Proof.
  unfold record_id. destruct (truthy (extract_id_from_url lib l)) eqn:Hi; run_monad.
  - eexists. split; [reflexivity|]. by destruct (extract_id_from_url lib l).
  - eexists. split; [reflexivity|]. apply str_of_int_nonempty.
Qed.

Lemma dict_get_elem {V} (d : list (str * V)) (k : str) (v : V) :
  dict_get d k = Some v → (k, v) ∈ d.
Proof.
  induction d as [|[k' v'] d IH]; simpl; [done|].
  destruct (decide (k' = k)) as [->|Hne]; [intros [= ->]; left | intros H; right; auto].
Qed.

Lemma dict_set_elem {V} (d : list (str * V)) (k k0 : str) (v v0 : V) :
  (k0, v0) ∈ dict_set d k v → (k0, v0) ∈ d ∨ (k0 = k ∧ v0 = v).
Proof.
  induction d as [|[k' v'] d IH]; simpl; intros H.
  - apply list_elem_of_singleton in H. injection H as -> ->. by right.
  - destruct (decide (k' = k)) as [->|Hne].
    + apply elem_of_cons in H as [H|H]; [injection H as -> ->; by right | left; by right].
    + apply elem_of_cons in H as [H|H]; [left; rewrite H; left|].
      destruct (IH H) as [H'|H']; [left; by right | by right].
Qed.

Lemma dict_set_append_length {A} (d : list (str * list A)) (k : str) (items : list A) (r : A) :
  dict_get d k = Some items →
  length (concat (dict_set d k (items ++ [r])).*2) = Datatypes.S (length (concat d.*2)).
Proof.
  induction d as [|[k' v'] d IH]; cbn [dict_get dict_set]; [done|].
  destruct (decide (k' = k)) as [->|Hne]; rewrite !fmap_cons; cbn [concat snd].
  - intros [= ->]. rewrite !length_app. simpl. lia.
  - intros H. rewrite !length_app, IH by done. lia.
Qed.

(** What one iteration does to the loop's variables: it counts a failure
    and stores nothing, or it appends one record to the list of the
    candidate's section and counts a success. *)
Lemma process_item_outcome (lib : PyLib) (w : World) (section_set : list str)
    (item : SitemapEntry) (st : crawl_state) (t : trace) :
  ∃ st' t',
    process_item lib w section_set item st t = (Ok tt, st', t') ∧
    (st' = incr_fail st ∨
     ∃ s items r,
       which_section (loc item) section_set = Some s ∧
       dict_get (results st) s = Some items ∧
       section r = Some s ∧ agency r = lit "thairath" ∧ id r ≠ [] ∧
       url r = loc item ∧
       st' = incr_ok {| results := dict_set (results st) s (items ++ [r]);
                        ok := ok st; skip := skip st; fail := fail st |}).
Proof.
  unfold process_item.
  pose proof (fetch_with_fast_retry_run w crawl_state (loc item) st t) as Hf.
  unfold try_except at 1. unfold mbind at 1, M_bind at 1, bind at 1.
  rewrite Hf. clear Hf.
  assert (∀ e t1, ∃ t',
            (print (MsgFail (loc item) e);; modify incr_fail) st t1
              = (Ok tt, incr_fail st, t')) as Hfail.
  { intros e t1. unfold print. run_monad. by eexists. }
  assert (∀ body t1,
     (∃ e,
        (let meta := extract_article lib body (loc item) in
         i ← record_id lib w (loc item);
         results_append (which_section (loc item) section_set)
           {| agency := lit "thairath";
              section := which_section (loc item) section_set;
              id := i;
              published_iso := meta_published_iso meta;
              headline := meta_headline meta;
              summary := meta_summary meta;
              content := meta_content meta;
              url := loc item |};;
         modify incr_ok;; print (MsgSaved (loc item));; sleep 50) st t1
        = (Raise e, st, t1)) ∨
     (∃ s items r t',
        (which_section (loc item) section_set = Some s ∧
         dict_get (results st) s = Some items ∧
         section r = Some s ∧ agency r = lit "thairath" ∧ id r ≠ [] ∧
         url r = loc item) ∧
        (let meta := extract_article lib body (loc item) in
         i ← record_id lib w (loc item);
         results_append (which_section (loc item) section_set)
           {| agency := lit "thairath";
              section := which_section (loc item) section_set;
              id := i;
              published_iso := meta_published_iso meta;
              headline := meta_headline meta;
              summary := meta_summary meta;
              content := meta_content meta;
              url := loc item |};;
         modify incr_ok;; print (MsgSaved (loc item));; sleep 50) st t1
        = (Ok tt,
           incr_ok {| results := dict_set (results st) s (items ++ [r]);
                      ok := ok st; skip := skip st; fail := fail st |},
           t'))) as Hblock.
  { intros body t1. cbn zeta.
    unfold results_append. unfold print, sleep. run_monad.
    destruct (record_id_nonempty lib w (loc item) st t1) as (i & -> & Hi).
    destruct (which_section (loc item) section_set) as [s|] eqn:Hsec;
      [|left; by eexists].
    destruct (dict_get (results st) s) as [items|] eqn:Hget; [|left; by eexists].
    right. eexists s, items, _, _. split; [|reflexivity]. cbn. done. }
  assert (∀ body t1, ∃ st' t',
     match
       (let meta := extract_article lib body (loc item) in
        i ← record_id lib w (loc item);
        results_append (which_section (loc item) section_set)
          {| agency := lit "thairath";
             section := which_section (loc item) section_set;
             id := i;
             published_iso := meta_published_iso meta;
             headline := meta_headline meta;
             summary := meta_summary meta;
             content := meta_content meta;
             url := loc item |};;
        modify incr_ok;; print (MsgSaved (loc item));; sleep 50) st t1
     with
     | (Raise e, s', t') => (print (MsgFail (loc item) e);; modify incr_fail) s' t'
     | r => r
     end = (Ok tt, st', t') ∧
     (st' = incr_fail st ∨
      ∃ s items r,
        which_section (loc item) section_set = Some s ∧
        dict_get (results st) s = Some items ∧
        section r = Some s ∧ agency r = lit "thairath" ∧ id r ≠ [] ∧
        url r = loc item ∧
        st' = incr_ok {| results := dict_set (results st) s (items ++ [r]);
                         ok := ok st; skip := skip st; fail := fail st |})) as Hok.
  { intros body t1.
    destruct (Hblock body t1) as [(e & ->) | (s & items & r & t' & Hconds & ->)].
    - destruct (Hfail e t1) as [t' ->]. exists (incr_fail st), t'. split; [done | by left].
    - eexists _, t'. split; [reflexivity|]. right. exists s, items, r.
      destruct Hconds as (? & ? & ? & ? & ? & ?). done. }
  destruct (http_get w t (loc item) 2) as [e1|body].
  - cbn zeta. destruct (http_get w _ (loc item) 3) as [e2|body].
    + destruct (Hfail e2 ((t ++ [EvGet (loc item) 2; EvSleep 200]) ++ [EvGet (loc item) 3]))
        as [t' ->]. exists (incr_fail st), t'. split; [done | by left].
    + apply Hok.
  - apply Hok.
Qed.

Lemma record_of_more (section_set : list str) (c1 c2 : list SitemapEntry)
    (k : str) (r : ArticleRecord) :
  (∀ x, x ∈ c1 → x ∈ c2) → record_of section_set c1 k r → record_of section_set c2 k r.
Proof.
  intros Hsub (? & ? & ? & Hurl & ? & ?). repeat split; try done.
  apply list_elem_of_fmap in Hurl as (x & -> & Hx).
  apply list_elem_of_fmap. exists x. split; [done | by apply Hsub].
Qed.

Lemma init_results_values (sections : list str) (k : str) (items : list ArticleRecord) :
  (k, items) ∈ init_results sections → items = [].
Proof.
  unfold init_results.
  assert (∀ d : list (str * list ArticleRecord),
            (∀ k v, (k, v) ∈ d → v = []) →
            ∀ k v, (k, v) ∈ foldl (λ d s, dict_set d s []) d sections → v = []) as H.
  { induction sections as [|x l IH]; intros d Hd; simpl; [exact Hd|].
    apply IH. intros k' v' Hin.
    apply dict_set_elem in Hin as [Hin | [_ ->]]; [by eapply Hd | done]. }
  apply H. intros k' v' Hin. inversion Hin.
Qed.

Lemma concat_all_empty {A} (d : list (str * list A)) :
  (∀ k v, (k, v) ∈ d → v = []) → concat d.*2 = [].
Proof.
  induction d as [|[k v] d IH]; intros H; [done|].
  rewrite fmap_cons. cbn [concat snd].
  rewrite (H k v) by left. apply IH. intros k' v' Hin. eapply H. by right.
Qed.

(** X19: after the processing loop every list of the results dictionary
    holds only records of its own section: a record stored under a key has
    that key as its section, the agency [thairath], a non-empty id and the
    URL of a candidate that the classifier gives that section. The number of
    successes is the number of stored records, successes and failures add up
    to the number of candidates, and nothing is ever counted as skipped. *)
Theorem stored_records_match_their_section
    (lib : PyLib) (w : World) (section_set sections : list str)
    (filtered : list SitemapEntry) (t : trace) :
  let st' :=
    (for_each filtered (process_item lib w section_set)
       {| results := init_results sections; ok := 0; skip := 0; fail := 0 |} t).1.2 in
  (∀ k items, (k, items) ∈ results st' →
              Forall (record_of section_set filtered k) items) ∧
  ok st' = Z.of_nat (length (concat (results st').*2)) ∧
  (ok st' + fail st')%Z = Z.of_nat (length filtered) ∧
  skip st' = 0%Z.
Proof.
  pose (I := λ (visited : list SitemapEntry) (st : crawl_state) (_ : trace),
          (∀ k items, (k, items) ∈ results st →
                      Forall (record_of section_set visited k) items) ∧
          ok st = Z.of_nat (length (concat (results st).*2)) ∧
          (ok st + fail st)%Z = Z.of_nat (length visited) ∧
          skip st = 0%Z).
  destruct (for_each_inv I (process_item lib w section_set) filtered [])
    with (s := {| results := init_results sections; ok := 0; skip := 0; fail := 0 |})
         (t := t) as (st' & t' & -> & HI).
  - intros p x q st t1 _ (Hrec & Hok & Hcnt & Hskip). cbn [app] in *.
    destruct (process_item_outcome lib w section_set x st t1)
      as (st1 & t2 & Hrun & Hcase).
    exists st1, t2. split; [exact Hrun|].
    assert (∀ y, y ∈ p → y ∈ p ++ [x]) as Hsub.
    { intros y Hy. apply elem_of_app. by left. }
    destruct Hcase as [-> | (s & items & r & Hsec & Hget & Hr1 & Hr2 & Hr3 & Hr4 & ->)].
    + split; [|split; [done|split; [|done]]].
      * intros k items Hin. eapply Forall_impl; [by apply Hrec|].
        intros r. by apply record_of_more.
      * rewrite length_app. simpl. lia.
    + split; [|split; [|split; [|done]]].
      * intros k items' Hin. cbn [results incr_ok] in Hin.
        apply dict_set_elem in Hin as [Hin | [-> ->]].
        { eapply Forall_impl; [by apply Hrec|]. intros r'. by apply record_of_more. }
        apply Forall_app. split.
        { eapply Forall_impl; [apply (Hrec s), dict_get_elem, Hget|].
          intros r'. by apply record_of_more. }
        constructor; [|constructor].
        split; [done|]. split; [done|]. split; [done|]. rewrite Hr4.
        split; [|split; [done | by eapply which_section_Some_matches]].
        rewrite fmap_app. apply elem_of_app. right. left.
      * cbn [results incr_ok ok]. rewrite (dict_set_append_length _ _ _ _ Hget). lia.
      * cbn [incr_ok ok fail]. rewrite length_app. simpl. lia.
  - split; [|split; [|done]].
    + intros k items Hin. apply init_results_values in Hin. subst items. constructor.
    + cbn [results ok]. rewrite concat_all_empty; [done|].
      intros k v. apply init_results_values.
  - exact HI.
Qed.

(** ** Parameters *)

(** X20: when [--since-days] or [--limit] is not an integer, [--sections]
    has no value, or the date window leaves the range of [datetime], [main]
    raises at the first such parameter, with exit status 1, before printing
    or requesting anything. *)
Theorem main_stops_at_a_bad_parameter
    (lib : PyLib) (w : World) (argv : list str) (t : trace)
    (sitemap_url : argval) (e : exn)
    (Hsitemap : parse_args argv !! lit "sitemap" = Some sitemap_url)
    (Hurl : sitemap_url ≠ ArgStr [])
    (Hbad : parameter_error lib w (parse_args argv) t e) :
  main lib w argv tt t = (Raise e, tt, t) ∧
  exit_status (main lib w argv tt t) = Some 1%Z.
Proof.
  assert (main lib w argv tt t = (Raise e, tt, t)) as Hm.
  2:{ split; [done|]. unfold exit_status. by rewrite Hm. }
  unfold main, parameter_error in *. rewrite Hsitemap.
  destruct (int_arg lib (parse_args argv !! lit "since-days") 1825) as [e1|since_days].
  { subst e1. by destruct sitemap_url as [[|c l]|]. }
  destruct (int_arg lib (parse_args argv !! lit "limit") 0) as [e2|limit].
  { subst e2. by destruct sitemap_url as [[|c l]|]. }
  destruct (requested_sections _) as [e3|sections].
  { subst e3. by destruct sitemap_url as [[|c l]|]. }
  destruct sitemap_url as [[|c l]|]; [done| |]; run_monad; by rewrite Hbad.
Qed.

Lemma csv_writes_cons_empty (base k : str) (res : list (str * list ArticleRecord)) :
  csv_writes base ((k, []) :: res) = csv_writes base res.
Proof. reflexivity. Qed.

Lemma csv_writes_cons (base k : str) (r : ArticleRecord) (rows : list ArticleRecord)
    (res : list (str * list ArticleRecord)) :
  csv_writes base ((k, r :: rows) :: res) =
    EvWriteCsv (replace base (lit ".csv") (lit "_" ++ k ++ lit ".csv")) fieldnames (r :: rows)
      :: csv_writes base res.
Proof. reflexivity. Qed.

(** One turn of the save loop. *)
Lemma save_outputs_cons_empty {S} (w : World) (out_csv_base : argval) (k : str)
    (res : list (str * list ArticleRecord)) (s : S) (t : trace) :
  save_outputs w out_csv_base ((k, []) :: res) s t = save_outputs w out_csv_base res s t.
Proof. reflexivity. Qed.

Lemma save_outputs_cons {S} (w : World) (base k : str)
    (r : ArticleRecord) (rows : list ArticleRecord)
    (res : list (str * list ArticleRecord)) (s : S) (t : trace) :
  save_outputs w (ArgStr base) ((k, r :: rows) :: res) s t =
    match write_file w
            (t ++ [EvWriteCsv (replace base (lit ".csv") (lit "_" ++ k ++ lit ".csv"))
                     fieldnames (r :: rows)])
            (replace base (lit ".csv") (lit "_" ++ k ++ lit ".csv")) with
    | Some e =>
        (Raise e, s,
         t ++ [EvWriteCsv (replace base (lit ".csv") (lit "_" ++ k ++ lit ".csv"))
                 fieldnames (r :: rows)])
    | None =>
        save_outputs w (ArgStr base) res s
          (t ++ [EvWriteCsv (replace base (lit ".csv") (lit "_" ++ k ++ lit ".csv"))
                   fieldnames (r :: rows)])
    end.
Proof.
  unfold save_outputs. cbn [for_each]. unfold mbind at 1, M_bind at 1, bind at 1.
  cbn [csv_path_for returned]. run_monad. by destruct (write_file w _ _).
Qed.

(** X21: the save loop has no handler. Wherever in the dictionary the
    first file that cannot be written stands, the sections before it are
    saved as usual, the exception of that file leaves the loop at once, and
    the sections after it are not written. *)
Theorem save_outputs_stops_at_first_failure {S} (w : World) (base : str)
    (done_before rest : list (str * list ArticleRecord))
    (sec : str) (first : ArticleRecord) (items : list ArticleRecord)
    (s : S) (t : trace) (e : exn)
    (Hbefore : ∀ pre k r rows post,
       done_before = pre ++ (k, r :: rows) :: post →
       write_file w (t ++ csv_writes base (pre ++ [(k, r :: rows)]))
         (replace base (lit ".csv") (lit "_" ++ k ++ lit ".csv")) = None)
    (Hfail : write_file w
               (t ++ csv_writes base (done_before ++ [(sec, first :: items)]))
               (replace base (lit ".csv") (lit "_" ++ sec ++ lit ".csv")) = Some e) :
  save_outputs w (ArgStr base) (done_before ++ (sec, first :: items) :: rest) s t =
    (Raise e, s, t ++ csv_writes base (done_before ++ [(sec, first :: items)])).
Proof.
  revert t Hbefore Hfail.
  induction done_before as [|[k v] d IH]; intros t Hbefore Hfail.
  - cbn [app] in *. rewrite csv_writes_cons in *.
    change (csv_writes base []) with (@nil event) in *.
    by rewrite save_outputs_cons, Hfail.
  - destruct v as [|r rows].
    + cbn [app]. rewrite save_outputs_cons_empty, csv_writes_cons_empty. apply IH.
      * intros pre k' r' rows' post ->.
        apply (Hbefore ((k, []) :: pre) k' r' rows' post eq_refl).
      * exact Hfail.
    + pose proof (Hbefore [] k r rows d eq_refl) as Hthis.
      cbn [app] in Hthis. rewrite csv_writes_cons in Hthis.
      change (csv_writes base []) with (@nil event) in Hthis.
      cbn [app]. rewrite save_outputs_cons, Hthis, csv_writes_cons. rewrite IH.
      * by rewrite <- app_assoc.
      * intros pre k' r' rows' post ->. rewrite <- app_assoc.
        apply (Hbefore ((k, r :: rows) :: pre) k' r' rows' post eq_refl).
      * rewrite <- app_assoc. exact Hfail.
Qed.

(** ** Instances of the further properties *)

Lemma resolver_root_failure_witness :
  fetch_sitemap_urls Demo.lib Demo.world (lit "https://x/missing.xml") 500 tt [] =
    (Ok [], tt,
     [ EvGet (lit "https://x/missing.xml") 10;
       EvPrint (MsgSitemapFail (lit "https://x/missing.xml")
                  (RequestException (lit "404"))) ]).
Proof.
  apply (resolver_root_failure Demo.lib Demo.world unit (lit "https://x/missing.xml")
           500 tt [] (RequestException (lit "404"))).
  - reflexivity.
  - left. vm_compute. reflexivity.
Defined.

Lemma resolver_url_set_witness :
  fetch_sitemap_urls Scenario.lib Scenario.world Scenario.sitemap_url 500 tt [] =
    (Ok [ {| loc := Scenario.article_url; lastmod := Some Scenario.today |} ], tt,
     [ EvGet Scenario.sitemap_url 10 ]).
Proof.
  apply (resolver_url_set Scenario.lib Scenario.world unit Scenario.sitemap_url 500 tt []
           (lit "...") Scenario.urlset); reflexivity.
Defined.

Lemma parse_args_keys_and_values_witness :
  (∃ pre arg rest,
     [lit "prog"; lit "--limit"; lit "5"] = pre ++ arg :: rest ∧
     startswith arg (lit "--") = true ∧
     lit "limit" = drop 2 arg ∧ ArgStr (lit "5") = flag_value rest) ∧
  (∀ x, ArgStr (lit "5") = ArgStr x →
        x ∈ [lit "prog"; lit "--limit"; lit "5"] ∧ startswith x (lit "--") = false).
Proof.
  apply (parse_args_keys_and_values [lit "prog"; lit "--limit"; lit "5"]
           (lit "limit") (ArgStr (lit "5"))).
  vm_compute. reflexivity.
Defined.

Lemma parse_args_last_wins_witness :
  parse_args ([lit "prog"; lit "--limit"; lit "5"] ++ lit "--limit" :: [lit "7"])
    !! drop 2 (lit "--limit") = Some (flag_value [lit "7"]).
Proof.
  apply (parse_args_last_wins [lit "prog"; lit "--limit"; lit "5"] [lit "7"] (lit "--limit")).
  - reflexivity.
  - intros x Hx Hflag. apply list_elem_of_singleton in Hx. subst x. discriminate Hflag.
Defined.

Lemma save_outputs_one_file_per_nonempty_section_witness :
  save_outputs Demo.world (ArgStr (lit "out.csv"))
    [ (lit "economics", []); (lit "politic", [Cases.record]) ] tt [] =
    (Ok tt, tt,
     [] ++ csv_writes (lit "out.csv")
             [ (lit "economics", []); (lit "politic", [Cases.record]) ]).
Proof.
  apply (save_outputs_one_file_per_nonempty_section Demo.world (lit "out.csv")).
  reflexivity.
Defined.

Lemma save_outputs_stops_at_first_failure_witness :
  save_outputs Cases.one_locked (ArgStr (lit "out.csv"))
    ([ (lit "economics", []); (lit "politic", [Cases.record]) ] ++
     (lit "investment", Cases.record :: []) ::
       [ (lit "tech_innovation", [Cases.record]) ]) tt [] =
    (Raise (OSError (lit "Permission denied")), tt,
     [] ++ csv_writes (lit "out.csv")
             ([ (lit "economics", []); (lit "politic", [Cases.record]) ] ++
              [ (lit "investment", Cases.record :: []) ])).
Proof.
  apply (save_outputs_stops_at_first_failure Cases.one_locked (lit "out.csv")
           [ (lit "economics", []); (lit "politic", [Cases.record]) ]
           [ (lit "tech_innovation", [Cases.record]) ]
           (lit "investment") Cases.record [] tt []
           (OSError (lit "Permission denied"))).
  - intros pre k r rows post H.
    destruct pre as [|p1 [|p2 pre]]; [discriminate H | |].
    + injection H as _ <- _ _ _. reflexivity.
    + destruct pre; discriminate H.
  - reflexivity.
Defined.

Lemma main_stops_at_a_bad_parameter_witness :
  main Demo.lib Demo.world Cases.bad_days tt [] = (Raise ValueError, tt, []) ∧
  exit_status (main Demo.lib Demo.world Cases.bad_days tt []) = Some 1%Z.
Proof.
  apply (main_stops_at_a_bad_parameter Demo.lib Demo.world Cases.bad_days []
           (ArgStr Demo.A_url) ValueError).
  - vm_compute. reflexivity.
  - discriminate.
  - vm_compute. reflexivity.
Defined.

(** * Classification during a run *)

(** ** The rule of a section *)

Lemma section_paths_rule (u s path : str) :
  (s, path) ∈ section_paths → section_matches u s = str_in path u.
Proof.
  unfold section_paths. intros H.
  repeat (apply elem_of_cons in H as [[= -> ->]|H]); [..|by inversion H].
  - by apply (section_matches_rule _ (lit "/money/economics") (lit "/thai_economics/") u
                (λ u, str_in (lit "/money/economics/thai_economics/") u)).
  - by apply (section_matches_rule _ (lit "/money/investment") (lit "/") u
                (λ u, str_in (lit "/money/investment/") u)).
  - by apply (section_matches_rule _ (lit "/money/tech_innovation") (lit "/") u
                (λ u, str_in (lit "/money/tech_innovation/") u)).
  - by apply (section_matches_rule _ (lit "/news/politic") (lit "/") u
                (λ u, str_in (lit "/news/politic/") u)).
  - by apply (section_matches_rule _ (lit "/money/personal_finance") (lit "/") u
                (λ u, str_in (lit "/money/personal_finance/") u)).
  - by apply (section_matches_rule _ (lit "/money/business_marketing") (lit "/") u
                (λ u, str_in (lit "/money/business_marketing/") u)).
Qed.

(** The test of the loop is the rule: the name is a built-in section and
    the URL contains its path. *)
Lemma section_matches_iff_rule (u s : str) :
  section_matches u s = true ↔ section_rule u s.
Proof.
  split.
  - intros H.
    assert (s ∈ section_paths.*1) as Hs.
    { unfold section_matches in H.
      destruct (SECTION_PREFIX !! s) as [p|] eqn:Hp; [|done].
      apply elem_of_list_to_map_2 in Hp.
      apply (list_elem_of_fmap_2 fst) in Hp. exact Hp. }
    apply list_elem_of_fmap in Hs as ([s' path] & -> & Hin). cbn [fst] in *.
    rewrite (section_paths_rule u s' path Hin) in H.
    apply str_in_iff in H as (l & r & ->). by exists path, l, r.
  - intros (path & l & r & Hin & ->).
    rewrite (section_paths_rule _ s path Hin). apply str_in_iff. by exists l, r.
Qed.

Lemma which_section_first (u : str) (order : list str) :
  first_match u order (which_section u order).
Proof.
  assert (∀ l, Forall (λ x, section_matches u x = false) l →
               Forall (λ x, ¬ section_rule u x) l) as Hnone.
  { intros l Hl. eapply Forall_impl; [exact Hl|].
    intros x Hx Hr. apply section_matches_iff_rule in Hr. congruence. }
  pose proof (which_section_split u order) as H. unfold first_match.
  destruct (which_section u order) as [s|]; [|by apply Hnone].
  destruct H as (before & after & -> & Hs & Hb).
  exists before, after. split; [done|]. split; [|by apply Hnone].
  by apply section_matches_iff_rule.
Qed.

(** ** The records of the processing loop and the events around it *)

Lemma sitemap_event_not_write (ev : event) : sitemap_event ev → ¬ is_write ev.
Proof.
  intros [[u ->] | (u & e & ->)] (path & fields & rows & [=]).
Qed.

(** The loop stores each record under what [which_section] gives its URL,
    and writes no file. *)
Lemma process_loop_sections (lib : PyLib) (w : World) (section_set sections : list str)
    (filtered : list SitemapEntry) (t : trace) :
  ∃ st' new,
    for_each filtered (process_item lib w section_set)
      {| results := init_results sections; ok := 0; skip := 0; fail := 0 |} t
      = (Ok tt, st', t ++ new) ∧
    Forall (λ ev, ¬ is_write ev) new ∧
    ∀ k items, (k, items) ∈ results st' → Forall (stored_under section_set k) items.
Proof.
  pose (I := λ (_ : list SitemapEntry) (st : crawl_state) (t' : trace),
          (∃ new, t' = t ++ new ∧ Forall (λ ev, ¬ is_write ev) new) ∧
          ∀ k items, (k, items) ∈ results st → Forall (stored_under section_set k) items).
  destruct (for_each_inv I (process_item lib w section_set) filtered [])
    with (s := {| results := init_results sections; ok := 0; skip := 0; fail := 0 |})
         (t := t) as (st' & t' & Hrun & (new & -> & Hev) & Hrec).
  - intros p x q st t1 _ ((new1 & -> & Hev1) & Hrec).
    destruct (process_item_outcome lib w section_set x st (t ++ new1))
      as (st1 & t2 & Hrun & Hcase).
    destruct (process_item_events lib w section_set (λ ev, ¬ is_write ev) x st (t ++ new1))
      as (st2 & new2 & Hrun2 & Hev2 & _).
    { intros timeout (? & ? & ? & [=]). }
    { intros ms (? & ? & ? & [=]). }
    { intros m (? & ? & ? & [=]). }
    rewrite Hrun in Hrun2. injection Hrun2 as <- ->.
    exists st1, ((t ++ new1) ++ new2). split; [exact Hrun|]. split.
    + exists (new1 ++ new2). rewrite app_assoc. split; [done|].
      apply Forall_app. by split.
    + destruct Hcase as [-> | (s & items & r & Hsec & Hget & Hr1 & _ & _ & Hr4 & ->)];
        [exact Hrec|].
      intros k items' Hin. cbn [results incr_ok] in Hin.
      apply dict_set_elem in Hin as [Hin | [-> ->]]; [by apply Hrec|].
      apply Forall_app. split; [apply (Hrec s), dict_get_elem, Hget|].
      constructor; [|constructor]. split; [done|]. by rewrite Hr4.
  - split; [exists []; by rewrite app_nil_r|].
    intros k items Hin. apply init_results_values in Hin. subst items. constructor.
  - by exists st', new.
Qed.

(** What a run writes, once its parameters are read: every file holds the
    list of one section of a dictionary whose records are stored under what
    [which_section] gives their URLs for the set of the requested sections. *)
Lemma main_tail_writes (lib : PyLib) (w : World) (sitemap_url : argval)
    (since_days : Z) (sections : list str) (out_csv_base : argval) (t : trace) :
  ∃ r new,
    (now ← ask (datetime_now w);
     since_date ← returned (minus_days now since_days);
     print (MsgFetchingSitemap sitemap_url);;
     all_urls ← fetch_sitemap_urls lib w (str_of_argval sitemap_url) 500;
     let filtered :=
       (filter_loop (set_iter lib sections) since_date all_urls [] ∅).1 in
     r ← with_locals
           {| results := init_results sections; ok := 0; skip := 0; fail := 0 |}
           (for_each filtered (process_item lib w (set_iter lib sections)));
     save_outputs w out_csv_base (results r.2);;
     print (MsgDone (ok r.2) (skip r.2) (fail r.2))) tt t = (r, tt, t ++ new) ∧
    ∀ ev, ev ∈ new → is_write ev →
      ∃ res,
        written_verbatim out_csv_base res ev ∧
        ∀ k items, (k, items) ∈ res →
                   Forall (stored_under (set_iter lib sections) k) items.
Proof.
  assert (∀ m, ¬ is_write (EvPrint m)) as Hprint by (intros m (? & ? & ? & [=])).
  unfold print. run_monad.
  destruct (minus_days (datetime_now w t) since_days) as [e|since_date]; cbn.
  { exists (Raise e), []. rewrite app_nil_r. split; [done|]. intros ev Hin. inversion Hin. }
  destruct (resolver_run lib w unit (str_of_argval sitemap_url) 500 tt
              (t ++ [EvPrint (MsgFetchingSitemap sitemap_url)]))
    as (entries & new1 & -> & Hev1 & _ & _).
  unfold with_locals.
  destruct (process_loop_sections lib w (set_iter lib sections) sections
              (filter_loop (set_iter lib sections) since_date entries [] ∅).1
              ((t ++ [EvPrint (MsgFetchingSitemap sitemap_url)]) ++ new1))
    as (st' & new2 & -> & Hev2 & Hrec). cbn.
  destruct (save_outputs_run (S := unit) w out_csv_base (results st') tt
              (((t ++ [EvPrint (MsgFetchingSitemap sitemap_url)]) ++ new1) ++ new2))
    as (r & new3 & -> & Hr & Hev3 & _).
  assert (∀ ev, ev ∈ EvPrint (MsgFetchingSitemap sitemap_url) :: new1 ++ new2 ++ new3 →
                is_write ev →
                ∃ res,
                  written_verbatim out_csv_base res ev ∧
                  ∀ k items, (k, items) ∈ res →
                             Forall (stored_under (set_iter lib sections) k) items) as Hall.
  { intros ev Hin Hw.
    apply elem_of_cons in Hin as [-> | Hin]; [by apply Hprint in Hw|].
    apply elem_of_app in Hin as [Hin | Hin].
    { rewrite Forall_forall in Hev1. by apply Hev1, sitemap_event_not_write in Hin. }
    apply elem_of_app in Hin as [Hin | Hin].
    { rewrite Forall_forall in Hev2. by apply Hev2 in Hin. }
    rewrite Forall_forall in Hev3. exists (results st'). split; [by apply Hev3 | exact Hrec]. }
  destruct r as [[]|e|]; [| |done].
  - exists (Ok tt),
      (EvPrint (MsgFetchingSitemap sitemap_url) :: new1 ++ new2 ++ new3 ++
       [EvPrint (MsgDone (ok st') (skip st') (fail st'))]).
    split; [by rewrite <- !app_assoc|].
    intros ev Hin Hw. apply Hall; [|done].
    rewrite !app_comm_cons, !app_assoc in Hin.
    apply elem_of_app in Hin as [Hin | Hin].
    + by rewrite !app_comm_cons, !app_assoc.
    + apply list_elem_of_singleton in Hin. subst ev. by apply Hprint in Hw.
  - exists (Raise e), (EvPrint (MsgFetchingSitemap sitemap_url) :: new1 ++ new2 ++ new3).
    split; [by rewrite <- !app_assoc | exact Hall].
Qed.

(** The same for a whole run, from the command line on. *)
Lemma main_writes (lib : PyLib) (w : World) (argv : list str) (ev : event) :
  ev ∈ (main lib w argv tt []).2 → is_write ev →
  ∃ sections res,
    requested_sections
      (default (ArgStr (lit "economics,investment,tech_innovation,politic"))
         (parse_args argv !! lit "sections")) = inr sections ∧
    written_verbatim
      (default (ArgStr (lit "data/thairath_dataset.csv")) (parse_args argv !! lit "out-csv"))
      res ev ∧
    ∀ k items, (k, items) ∈ res → Forall (stored_under (set_iter lib sections) k) items.
Proof.
  assert (∀ m, ev ∈ [EvPrint m] → is_write ev → False) as Hone.
  { intros m Hin (? & ? & ? & ->). apply list_elem_of_singleton in Hin. done. }
  assert (∀ sitemap_url,
            ev ∈ ((since_days ← returned (int_arg lib (parse_args argv !! lit "since-days") 1825);
                   let sections_str :=
                     default (ArgStr (lit "economics,investment,tech_innovation,politic"))
                       (parse_args argv !! lit "sections") in
                   limit ← returned (int_arg lib (parse_args argv !! lit "limit") 0);
                   let out_csv_base :=
                     default (ArgStr (lit "data/thairath_dataset.csv"))
                       (parse_args argv !! lit "out-csv") in
                   sections ← returned (requested_sections sections_str);
                   let section_set := set_iter lib sections in
                   now ← ask (datetime_now w);
                   since_date ← returned (minus_days now since_days);
                   print (MsgFetchingSitemap sitemap_url);;
                   all_urls ← fetch_sitemap_urls lib w (str_of_argval sitemap_url) 500;
                   let filtered := (filter_loop section_set since_date all_urls [] ∅).1 in
                   r ← with_locals
                         {| results := init_results sections; ok := 0; skip := 0; fail := 0 |}
                         (for_each filtered (process_item lib w section_set));
                   save_outputs w out_csv_base (results r.2);;
                   print (MsgDone (ok r.2) (skip r.2) (fail r.2))) tt []).2 →
            is_write ev →
            ∃ sections res,
              requested_sections
                (default (ArgStr (lit "economics,investment,tech_innovation,politic"))
                   (parse_args argv !! lit "sections")) = inr sections ∧
              written_verbatim
                (default (ArgStr (lit "data/thairath_dataset.csv"))
                   (parse_args argv !! lit "out-csv"))
                res ev ∧
              ∀ k items, (k, items) ∈ res →
                         Forall (stored_under (set_iter lib sections) k) items) as Hbody.
  { intros sitemap_url. cbn zeta.
    destruct (int_arg lib (parse_args argv !! lit "since-days") 1825) as [e|since_days];
      [intros Hin; by inversion Hin|].
    destruct (int_arg lib (parse_args argv !! lit "limit") 0) as [e|limit];
      [intros Hin; by inversion Hin|].
    destruct (requested_sections _) as [e|sections] eqn:Hsec;
      [intros Hin; by inversion Hin|].
    destruct (main_tail_writes lib w sitemap_url since_days sections
                (default (ArgStr (lit "data/thairath_dataset.csv"))
                   (parse_args argv !! lit "out-csv")) [])
      as (r & new & Hrun & Hnew).
    intros Hin Hw.
    apply (f_equal snd) in Hrun. cbn [snd app] in Hrun.
    assert (ev ∈ new) as Hin' by (rewrite <- Hrun; exact Hin).
    destruct (Hnew ev Hin' Hw) as (res & Hres & Hrec).
    by exists sections, res. }
  unfold main.
  destruct (parse_args argv !! lit "sitemap") as [[[|c l]|]|].
  - intros Hin Hw. by destruct (Hone _ Hin Hw).
  - apply Hbody.
  - apply Hbody.
  - intros Hin Hw. by destruct (Hone _ Hin Hw).
Qed.

(** The spec's reading below uses the same rule as the loop's test; it
    differs from the run in the order only. *)
Lemma spec_rule_iff (u s : str) : spec_rule u s = true ↔ section_rule u s.
Proof.
  unfold spec_rule, section_rule. rewrite existsb_exists. split.
  - intros ([s' path] & Hin & H). apply andb_prop in H as [Hs Hu].
    apply bool_decide_eq_true in Hs. cbn [fst snd] in *. subst s'.
    apply str_in_iff in Hu as (l & r & ->).
    exists path, l, r. split; [by apply list_elem_of_In | done].
  - intros (path & l & r & Hin & ->). exists (s, path).
    split; [by apply list_elem_of_In|]. cbn [fst snd].
    rewrite bool_decide_eq_true_2 by done. apply str_in_iff. by exists l, r.
Qed.

(** The set of names of the overlap scenario is a set of the requested
    names: the same names, each once. *)
Lemma overlap_set_iter_is_a_set (names : list str) :
  NoDup (set_iter Overlap.lib names) ∧
  ∀ x, x ∈ set_iter Overlap.lib names ↔ x ∈ names.
Proof.
  cbn [set_iter Overlap.lib]. split.
  - rewrite reverse_Permutation. apply NoDup_remove_dups.
  - intros x. by rewrite elem_of_reverse, elem_of_remove_dups.
Qed.

(** With [--sections politic,investment] the article of the overlap
    scenario, which lies under both paths, goes to the investment file. *)
Example overlap_run_writes_investment :
  (main Overlap.lib Scenario.world Overlap.argv tt []).2 !! 5%nat =
    Some (EvWriteCsv (lit "data/thairath_dataset_investment.csv") fieldnames
            [Overlap.stored]).
Proof. vm_compute. reflexivity. Qed.

(** C3, as stated, fails: the run does not examine the sections in the
    order in which the caller supplied them. With [--sections
    politic,investment] and a URL under both paths, the first requested
    section that matches is politic, and the record is stored under
    investment, the first in the iteration order of the set. *)
Lemma caller_order_not_kept :
  ¬ spec_caller_order Overlap.lib Scenario.world Overlap.argv.
Proof.
  intros H.
  destruct (H (lit "data/thairath_dataset_investment.csv") fieldnames
              [Overlap.stored] Overlap.stored) as (sections & Hsec & Hr).
  - apply list_elem_of_lookup. exists 5%nat. vm_compute. reflexivity.
  - left.
  - vm_compute in Hsec. injection Hsec as <-. vm_compute in Hr. discriminate Hr.
Qed.

(** C3, amended: [which_section] examines the names it is handed in their
    iteration order and returns the first whose rule matches the URL (the
    name is a built-in section and the URL contains its path), or [None]
    when the rule of none matches. [main] hands it the set built from the
    requested sections, so during a run the order is the iteration order of
    that set, whatever the order of the request: every record that a run
    writes has as its section what [which_section] gives its URL for that
    set, that section is the first match in the set's order, and the record
    is in that section's file. *)
Theorem classification_first_match_in_set_order (lib : PyLib) (w : World) :
  (∀ u sections_set, first_match u sections_set (which_section u sections_set)) ∧
  (∀ argv path fields rows r,
     EvWriteCsv path fields rows ∈ (main lib w argv tt []).2 →
     r ∈ rows →
     ∃ sections,
       requested_sections
         (default (ArgStr (lit "economics,investment,tech_innovation,politic"))
            (parse_args argv !! lit "sections")) = inr sections ∧
       section r = which_section (url r) (set_iter lib sections) ∧
       first_match (url r) (set_iter lib sections) (section r) ∧
       ∃ s, section r = Some s ∧
            csv_path_for
              (default (ArgStr (lit "data/thairath_dataset.csv"))
                 (parse_args argv !! lit "out-csv")) s = inr path).
Proof.
  split; [apply which_section_first|].
  intros argv path fields rows r Hin Hr.
  destruct (main_writes lib w argv _ Hin) as (sections & res & Hsec & Hres & Hrec).
  { by exists path, fields, rows. }
  destruct Hres as (sec & items & path' & [= -> _ ->] & Hitems & Hpath).
  specialize (Hrec sec items Hitems). rewrite Forall_forall in Hrec.
  destruct (Hrec r Hr) as [Hs Hws].
  exists sections. split; [exact Hsec|]. split; [congruence|]. split.
  - rewrite Hs, <- Hws. apply which_section_first.
  - by exists sec.
Qed.

Lemma classification_first_match_in_set_order_witness :
  first_match Overlap.article_url [lit "investment"; lit "politic"]
    (which_section Overlap.article_url [lit "investment"; lit "politic"]) ∧
  ∃ sections,
    requested_sections
      (default (ArgStr (lit "economics,investment,tech_innovation,politic"))
         (parse_args Overlap.argv !! lit "sections")) = inr sections ∧
    section Overlap.stored = which_section (url Overlap.stored) (set_iter Overlap.lib sections) ∧
    first_match (url Overlap.stored) (set_iter Overlap.lib sections) (section Overlap.stored) ∧
    ∃ s, section Overlap.stored = Some s ∧
         csv_path_for
           (default (ArgStr (lit "data/thairath_dataset.csv"))
              (parse_args Overlap.argv !! lit "out-csv")) s
           = inr (lit "data/thairath_dataset_investment.csv").
Proof.
  destruct (classification_first_match_in_set_order Overlap.lib Scenario.world)
    as [Hfirst Hrun].
  split; [apply Hfirst|].
  apply (Hrun Overlap.argv (lit "data/thairath_dataset_investment.csv") fieldnames
           [Overlap.stored] Overlap.stored).
  - apply list_elem_of_lookup. exists 5%nat. vm_compute. reflexivity.
  - left.
Defined.
